(** * Zero router: static table, route trie with backtracking, middleware
    chain, URL pool and error containment (src/index.ts). *)

From Stdlib Require Import Ascii String ZArith Lia.
From stdpp Require Import base option list strings gmap pretty.

Open Scope string_scope.

(** ** JavaScript string operations used by the router *)

Module JsString.

(** [s.split("/")]: always at least one element. *)
Fixpoint split (s : string) : list string :=
  match s with
  | EmptyString => [EmptyString]
  | String c rest =>
      if Ascii.eqb c "/"%char then EmptyString :: split rest
      else match split rest with
           | [] => [String c EmptyString]
           | seg :: segs => String c seg :: segs
           end
  end.

(** [parts.join("/")]. *)
Fixpoint join (parts : list string) : string :=
  match parts with
  | [] => EmptyString
  | [p] => p
  | p :: ps => p +:+ "/" +:+ join ps
  end.

(** [s.includes(c)] for a one-character needle. *)
Fixpoint includes (c : ascii) (s : string) : bool :=
  match s with
  | EmptyString => false
  | String d rest => Ascii.eqb d c || includes c rest
  end.

(** [s.startsWith(c)] for a one-character prefix. *)
Definition startsWith (c : ascii) (s : string) : bool :=
  match s with
  | EmptyString => false
  | String d _ => Ascii.eqb d c
  end.

(** [s.slice(1)]. *)
Definition slice1 (s : string) : string :=
  match s with
  | EmptyString => EmptyString
  | String _ rest => rest
  end.

End JsString.

(** ** HTTP methods *)

(** The values of [HTTP_METHODS]. *)
Definition GET : Z := 1.
Definition POST : Z := 2.
Definition PUT : Z := 4.
Definition DELETE : Z := 8.
Definition PATCH : Z := 16.
Definition OPTIONS : Z := 32.

(** What [HTTP_METHODS[name]] evaluates to. [HTTP_METHODS] is an ordinary
    object literal, so besides its six own properties the lookup also finds
    the members inherited from [Object.prototype]. *)
Inductive MethodValue :=
  | MBits (bits : Z)
  | MInherited (member : string).

Definition Object_prototype_members : list string :=
  [ "constructor"; "__proto__"; "hasOwnProperty"; "isPrototypeOf";
    "propertyIsEnumerable"; "toLocaleString"; "toString"; "valueOf";
    "__defineGetter__"; "__defineSetter__"; "__lookupGetter__";
    "__lookupSetter__" ].

(** [HTTP_METHODS[name]]; [None] is [undefined]. *)
Definition HTTP_METHODS (name : string) : option MethodValue :=
  if String.eqb name "GET" then Some (MBits GET)
  else if String.eqb name "POST" then Some (MBits POST)
  else if String.eqb name "PUT" then Some (MBits PUT)
  else if String.eqb name "DELETE" then Some (MBits DELETE)
  else if String.eqb name "PATCH" then Some (MBits PATCH)
  else if String.eqb name "OPTIONS" then Some (MBits OPTIONS)
  else if bool_decide (name ∈ Object_prototype_members)
       then Some (MInherited name)
  else None.

(** The text a method value contributes to a template string. A number
    prints in decimal; an inherited member is a native function (or, for
    [__proto__], the prototype object). *)
Definition method_to_string (m : MethodValue) : string :=
  match m with
  | MBits z => pretty z
  | MInherited member =>
      if String.eqb member "__proto__" then "[object Object]"
      else if String.eqb member "constructor"
           then "function Object() { [native code] }"
      else "function " +:+ member +:+ "() { [native code] }"
  end.


(** ** Responses, thrown values and completions *)

Inductive Thrown :=
  | ErrorObject (message : string)   (* error instanceof Error *)
  | NonError (description : string). (* any other thrown value *)

Inductive Completion (A : Type) :=
  | Normal (a : A)
  | Abrupt (t : Thrown).
Arguments Normal {A} a.
Arguments Abrupt {A} t.

Record Request := mkRequest {
  url : string;
  method : string
}.

(** What the router uses of the platform it runs on. *)
Class Platform (TObj : Type) := {
  (** [JSON.stringify] can throw on a handler result (a cycle, a BigInt). *)
  JSON_stringify_throws : TObj -> option Thrown;
  (** [new URL(s).pathname], or [None] when the constructor throws. *)
  URL_pathname : string -> option string;
  (** The value read back from [urlObj.pathname] after assigning a string
      to it (the platform normalises what is assigned). *)
  URL_set_pathname : string -> string
}.

Set Warnings "-register-all".

Section Zero.

(** The environment type [TEnv] and the handler results that are neither a
    [Response], [undefined] nor a string are opaque to the router. *)
Context {TEnv TObj : Type}.

Inductive Body :=
  | BodyEmpty
  | BodyText (text : string)
  | BodyErrorJSON (error : string)   (* JSON.stringify({ error }) *)
  | BodyJSON (value : TObj).         (* JSON.stringify(value) *)

Record Response := mkResponse {
  status : Z;
  headers : list (string * string);
  body : Body
}.

(** [new Response()]. *)
Definition Response_default : Response := mkResponse 200 [] BodyEmpty.

Record Context := mkContext {
  params : gmap string string;
  req : Request;
  env : TEnv;
  res : Response
}.

(** What a handler returns. *)
Inductive Value :=
  | VResponse (r : Response)
  | VUndefined
  | VString (s : string)
  | VOther (o : TObj).

(** A handler receives the context and settles with a value or throws; it
    may also have assigned [ctx.res] by then, so its run is the value left in
    that slot together with its completion. *)
Definition Handler : Type := Context -> Response * Completion Value.

(** ** The route trie *)

Inductive RouteNode := mkNode {
  handlers : option (gmap Z Handler);
  static : option (gmap string RouteNode);
  param : option RouteNode;
  paramName : option string;
  wildcard : option RouteNode
}.

(** The object literal [{}]. *)
Definition emptyNode : RouteNode := mkNode None None None None None.

(** [node.handlers?.get(method)]: the keys of the map are numbers, so a
    method value that is not a number finds nothing. *)
Definition handlers_get (node : RouteNode) (m : MethodValue) : option Handler :=
  match m with
  | MBits z => handlers node ≫= (.!! z)
  | MInherited _ => None
  end.

(** [node.static?.get(part)]. *)
Definition static_get (node : RouteNode) (part : string) : option RouteNode :=
  static node ≫= (.!! part).

(** [node.wildcard?.handlers?.get(method)]. *)
Definition wildcard_get (node : RouteNode) (m : MethodValue) : option Handler :=
  wildcard node ≫= (λ w, handlers_get w m).

(** [node.paramName!] used as a property key. *)
Definition paramKey (node : RouteNode) : string :=
  default "undefined" (paramName node).

(** The static and the parametric attempt of [#findHandler], given the
    function [find] for the recursive call. Both return the handler found,
    if any, and the params object as the attempt leaves it. *)
Definition try_static
    (find : RouteNode -> gmap string string -> option Handler * gmap string string)
    (node : RouteNode) (part : string) (ps : gmap string string)
    : option Handler * gmap string string :=
  match static_get node part with
  | Some child => find child ps
  | None => (None, ps)
  end.

Definition try_param
    (find : RouteNode -> gmap string string -> option Handler * gmap string string)
    (node : RouteNode) (part : string) (ps : gmap string string)
    : option Handler * gmap string string :=
  match param node with
  | Some child =>
      match find child (<[paramKey node := part]> ps) with
      | (Some h, ps') => (Some h, ps')
      | (None, ps') => (None, delete (paramKey node) ps')
      end
  | None => (None, ps)
  end.

(** [#findHandler] on the segments [parts[index..]] still to match: the
    test [index === parts.length] is the empty list. The params object is
    mutated in place by the source and threaded through here. *)
Fixpoint findHandlerFrom (node : RouteNode) (rest : list string)
    (ps : gmap string string) (m : MethodValue)
    : option Handler * gmap string string :=
  match rest with
  | [] => (handlers_get node m, ps)
  | part :: rest' =>
      match try_static (λ c p, findHandlerFrom c rest' p m) node part ps with
      | (Some h, ps1) => (Some h, ps1)
      | (None, ps1) =>
          match try_param (λ c p, findHandlerFrom c rest' p m) node part ps1 with
          | (Some h, ps2) => (Some h, ps2)
          | (None, ps2) => (wildcard_get node m, ps2)
          end
      end
  end.

(** [#findHandler(node, parts, index, params, method)]. *)
Definition findHandler (node : RouteNode) (parts : list string) (index : nat)
    (ps : gmap string string) (m : MethodValue)
    : option Handler * gmap string string :=
  findHandlerFrom node (drop index parts) ps m.

(** The loop of [#add] over [parts[1..]], then the store of the handler at
    the node reached. The source mutates the nodes in place; the
    trie is a tree, so rebuilding the path gives the same trie. *)
Fixpoint add_parts (node : RouteNode) (parts : list string)
    (m : Z) (handler : Handler) : RouteNode :=
  match parts with
  | [] =>
      mkNode (Some (<[m := handler]> (default ∅ (handlers node))))
             (static node) (param node) (paramName node) (wildcard node)
  | part :: rest =>
      if JsString.startsWith ":" part then
        mkNode (handlers node) (static node)
               (Some (add_parts (default emptyNode (param node)) rest m handler))
               (Some (JsString.slice1 part))
               (wildcard node)
      else if String.eqb part "*" then
        mkNode (handlers node) (static node) (param node) (paramName node)
               (Some (add_parts (default emptyNode (wildcard node)) rest m handler))
      else
        let children := default ∅ (static node) in
        let nextNode := default emptyNode (children !! part) in
        mkNode (handlers node)
               (Some (<[part := add_parts nextNode rest m handler]> children))
               (param node) (paramName node) (wildcard node)
  end.

(** ** Middleware *)

(** What a middleware does with the context and its continuation, as far as
    the router can observe: assign or read [ctx.res], await [next()] (with a
    handler for what [next()] throws; plain [await next()] rethrows), return
    or throw. [MwNextDropped] is a body that ends in [next();] without
    [await]: the promise of the call is dropped and the middleware returns. *)
Inductive MwProg :=
  | MwReturn
  | MwThrow (t : Thrown)
  | MwSetRes (r : Response) (k : MwProg)
  | MwGetRes (k : Response -> MwProg)
  | MwNext (k : MwProg) (onThrow : Thrown -> MwProg)
  | MwNextDropped.

Definition Middleware : Type := Context -> MwProg.

(** [handler] is [None] when [use(path)] was called without a middleware. *)
Record MiddlewareNode := mkMiddlewareNode {
  handler : option Middleware;
  path : string
}.

(** A pooled [URL] object; only its [pathname] is used. *)
Record URL := mkURL { pathname : string }.

(** [new URL("http://x")]. *)
Definition URL_fresh : URL := mkURL "/".

(** The private fields of the class. The array [#urlPool] is a list whose
    last element is the one [pop] takes. *)
Record Zero := mkZero {
  root : RouteNode;
  staticRoutes : gmap string Handler;
  middlewareRoutes : list MiddlewareNode;
  urlPool : list URL
}.

(** [#initializeUrlPool(size)]: the array it assigns to [#urlPool]. *)
Definition initializeUrlPool (size : nat) : list URL :=
  replicate size URL_fresh.

(** [new Zero(poolSize)]. *)
Definition Zero_new (poolSize : nat) : Zero :=
  mkZero emptyNode ∅ [] (initializeUrlPool poolSize).

(** The key of the static table. *)
Definition staticKey (m : MethodValue) (p : string) : string :=
  method_to_string m +:+ p.

(** [#add(method, path, handler)]. *)
Definition add (m : Z) (p : string) (h : Handler) (r : Zero) : Zero :=
  if negb (JsString.includes ":" p) && negb (JsString.includes "*" p) then
    mkZero (root r) (<[staticKey (MBits m) p := h]> (staticRoutes r))
           (middlewareRoutes r) (urlPool r)
  else
    mkZero (add_parts (root r) (drop 1 (JsString.split p)) m h)
           (staticRoutes r) (middlewareRoutes r) (urlPool r).

Definition get := add GET.
Definition post := add POST.
Definition put := add PUT.
Definition delete_ := add DELETE.

(** [use(pathOrMiddleware, handler?)]. *)
Definition use (pathOrMiddleware : string + Middleware)
    (h : option Middleware) (r : Zero) : Zero :=
  let middlewareNode :=
    match pathOrMiddleware with
    | inr mw => mkMiddlewareNode (Some mw) "*"
    | inl p => mkMiddlewareNode h p
    end in
  mkZero (root r) (staticRoutes r)
         (middlewareRoutes r ++ [middlewareNode]) (urlPool r).

(** [#matchMiddlewarePath(middlewarePath, requestPath)]. *)
Definition matchMiddlewarePath (middlewarePath requestPath : string) : bool :=
  if String.eqb middlewarePath "*" then true
  else
    let mParts := JsString.split middlewarePath in
    let rParts := JsString.split requestPath in
    if bool_decide (last mParts = Some "*") then
      let mParts' := removelast mParts in
      String.eqb (JsString.join (take (length mParts') rParts))
                 (JsString.join mParts')
    else if negb (length mParts =? length rParts)%nat then false
    else
      forallb id
        (imap (λ i part, JsString.startsWith ":" part
                         || bool_decide (rParts !! i = Some part)) mParts).

Context `{!Platform TObj}.

(** ** Response normalisation and error containment *)

(** [#formatResponse(result)]. *)
Definition formatResponse (result : Value) : Completion Response :=
  match result with
  | VResponse r => Normal r
  | VUndefined => Normal Response_default
  | VString s =>
      Normal (mkResponse 200 [("Content-Type", "text/plain")] (BodyText s))
  | VOther o =>
      match JSON_stringify_throws o with
      | Some t => Abrupt t
      | None =>
          Normal (mkResponse 200 [("Content-Type", "application/json")]
                             (BodyJSON o))
      end
  end.

Definition errorMessage (error : Thrown) : string :=
  match error with
  | ErrorObject message => message
  | NonError _ => "Unknown error occurred"
  end.

(** [#handleError(error)]. *)
Definition handleError (error : Thrown) : Response :=
  mkResponse 500 [("Content-Type", "application/json")]
             (BodyErrorJSON (errorMessage error)).

(** ** The middleware chain of [#execute] *)

(** Which callbacks were started, in order. This record is not in the
    source; it is kept next to the state of the chain to state which
    middleware and handlers ran. *)
Inductive Activation :=
  | RanMiddleware (index : nat)
  | RanHandler.

(** The mutable state the closure [next] works on: the slot [ctx.res] and
    the captured variable [currentIndex]. *)
Record ChainState := mkChainState {
  ctx_res : Response;
  currentIndex : nat;
  activations : list Activation
}.

Inductive ChainResult :=
  | Finished (st : ChainState)
  | Threw (t : Thrown) (st : ChainState)
  | OutOfFuel.

(** Running the body of one middleware; [next] is its continuation.
    A call of [next] that is awaited hands what it throws to the caller. A
    call whose promise is dropped does not: the rest of the chain still runs,
    but its rejection has no handler, so the middleware returns normally and
    the [catch] of [#execute] never sees the exception. The chain below a
    dropped call is taken as settled when [#execute] reads [ctx.res]; the
    order of the job queue decides that on the platform, and nothing below
    depends on it but the loss of the exception. *)
Fixpoint runMw (next : ChainState -> ChainResult) (p : MwProg)
    (st : ChainState) : ChainResult :=
  match p with
  | MwReturn => Finished st
  | MwThrow t => Threw t st
  | MwSetRes r k =>
      runMw next k (mkChainState r (currentIndex st) (activations st))
  | MwGetRes k => runMw next (k (ctx_res st)) st
  | MwNext k onThrow =>
      match next st with
      | Finished st' => runMw next k st'
      | Threw t st' => runMw next (onThrow t) st'
      | OutOfFuel => OutOfFuel
      end
  | MwNextDropped =>
      match next st with
      | Finished st' | Threw _ st' => Finished st'
      | OutOfFuel => OutOfFuel
      end
  end.

Section Chain.

Variable applicableMiddleware : list MiddlewareNode.
Variable routeHandler : Handler.
Variable ctx_params : gmap string string.
Variable ctx_req : Request.
Variable ctx_env : TEnv.

(** The object [ctx] as a callback sees it when it starts. *)
Definition ctx_of (st : ChainState) : Context :=
  mkContext ctx_params ctx_req ctx_env (ctx_res st).

(** The closure [next] of [#execute]. Each nested call of [next] starts
    from a larger [currentIndex], so the nesting is bounded; [fuel] bounds
    it. *)
Fixpoint next (fuel : nat) (st : ChainState) : ChainResult :=
  match fuel with
  | O => OutOfFuel
  | S fuel' =>
      if (currentIndex st <? length applicableMiddleware)%nat then
        let st' := mkChainState (ctx_res st) (S (currentIndex st))
                     (activations st ++ [RanMiddleware (currentIndex st)]) in
        match applicableMiddleware !! currentIndex st with
        | Some (mkMiddlewareNode (Some mw) _) =>
            runMw (next fuel') (mw (ctx_of st')) st'
        | _ =>
            Threw (ErrorObject "middleware.handler is not a function") st'
        end
      else
        let st' := mkChainState (ctx_res st) (currentIndex st)
                     (activations st ++ [RanHandler]) in
        match routeHandler (ctx_of st') with
        | (res', Normal result) =>
            match formatResponse result with
            | Normal r =>
                Finished (mkChainState r (currentIndex st) (activations st'))
            | Abrupt t =>
                Threw t (mkChainState res' (currentIndex st) (activations st'))
            end
        | (res', Abrupt t) =>
            Threw t (mkChainState res' (currentIndex st) (activations st'))
        end
  end.

End Chain.

(** The state of the chain when [#execute] first calls [next]. *)
Definition chain_start : ChainState := mkChainState Response_default 0 [].

(** The middleware [#execute] selects for a path. *)
Definition applicable (r : Zero) (p : string) : list MiddlewareNode :=
  filter (λ mw, matchMiddlewarePath (path mw) p = true) (middlewareRoutes r).

(** The body of the [try] block of [#execute]. *)
Definition run_chain (r : Zero) (h : Handler) (ps : gmap string string)
    (rq : Request) (e : TEnv) (p : string) : ChainResult :=
  let mws := applicable r p in
  next mws h ps rq e (S (length mws)) chain_start.

(** [#execute(handler, params, req, env, path)]; [None] only if the fuel
    of the chain ran out. *)
Definition execute (r : Zero) (h : Handler) (ps : gmap string string)
    (rq : Request) (e : TEnv) (p : string) : option Response :=
  match run_chain r h ps rq e p with
  | Finished st => Some (ctx_res st)
  | Threw error _ => Some (handleError error)
  | OutOfFuel => None
  end.

Definition Response_notFound : Response :=
  mkResponse 404 [] (BodyText "Not Found").

(** [#processRequest(req, env, pathname, method)]. *)
Definition processRequest (r : Zero) (rq : Request) (e : TEnv)
    (pathname_ : string) (m : MethodValue) : option Response :=
  match staticRoutes r !! staticKey m pathname_ with
  | Some staticHandler => execute r staticHandler ∅ rq e pathname_
  | None =>
      let parts := JsString.split pathname_ in
      match findHandler (root r) parts 1 ∅ m with
      | (Some h, ps) => execute r h ps rq e pathname_
      | (None, _) => Some Response_notFound
      end
  end.

(** The route lookup of [#processRequest] on its own: the handler chosen and
    the params object it is executed with. *)
Definition resolve (r : Zero) (pathname_ : string) (m : MethodValue)
    : option (Handler * gmap string string) :=
  match staticRoutes r !! staticKey m pathname_ with
  | Some staticHandler => Some (staticHandler, ∅)
  | None =>
      match findHandler (root r) (JsString.split pathname_) 1 ∅ m with
      | (Some h, ps) => Some (h, ps)
      | (None, _) => None
      end
  end.

(** [this.#urlPool.pop()]. *)
Definition pool_pop (pool : list URL) : option URL * list URL :=
  (last pool, removelast pool).

(** [urlObj.pathname = s]. *)
Definition URL_assign (urlObj : URL) (s : string) : URL :=
  match urlObj with
  | mkURL _ => mkURL (URL_set_pathname s)
  end.

(** [#getUrl(url)]: the object returned and the pool left. *)
Definition getUrl (u : string) (pool : list URL) : URL * list URL :=
  let '(popped, pool') := pool_pop pool in
  let urlObj := default URL_fresh popped in
  match URL_pathname u with
  | Some fullPath => (URL_assign urlObj fullPath, pool')
  | None => (URL_assign urlObj u, pool')
  end.

(** [handle(req, env)]: the response and the router afterwards. The
    [finally] clause pushes the object back whatever [#processRequest]
    did. *)
Definition handle (rq : Request) (e : TEnv) (r : Zero)
    : option (Response * Zero) :=
  let '(u, pool') := getUrl (url rq) (urlPool r) in
  let m := default (MBits GET) (HTTP_METHODS (method rq)) in
  let r' := mkZero (root r) (staticRoutes r) (middlewareRoutes r) pool' in
  match processRequest r' rq e (pathname u) m with
  | Some response =>
      Some (response,
            mkZero (root r) (staticRoutes r) (middlewareRoutes r)
                   (pool' ++ [u]))
  | None => None
  end.

(** [handle] for a sequence of requests, one after the other. *)
Fixpoint handle_all (rqs : list (Request * TEnv)) (r : Zero)
    : option (list Response * Zero) :=
  match rqs with
  | [] => Some ([], r)
  | (rq, e) :: rest =>
      match handle rq e r with
      | Some (response, r') =>
          match handle_all rest r' with
          | Some (responses, r'') => Some (response :: responses, r'')
          | None => None
          end
      | None => None
      end
  end.

(** A route of the trie, read off the nodes: the handler stored for [m] at
    the end of the walk along [pattern], where a segment with the parameter
    marker follows the parametric child (whatever its name), the wildcard
    marker the wildcard child and any other segment the literal child. *)
Fixpoint trie_route (node : RouteNode) (pattern : list string) (m : Z)
    : option Handler :=
  match pattern with
  | [] => handlers_get node (MBits m)
  | part :: rest =>
      if JsString.startsWith ":" part then
        param node ≫= (λ c, trie_route c rest m)
      else if String.eqb part "*" then
        wildcard node ≫= (λ c, trie_route c rest m)
      else
        static_get node part ≫= (λ c, trie_route c rest m)
  end.

(** The handler stored for [m] at the end of the walk along literal
    children only. *)
Fixpoint trie_literal (node : RouteNode) (segs : list string) (m : MethodValue)
    : option Handler :=
  match segs with
  | [] => handlers_get node m
  | seg :: rest => static_get node seg ≫= (λ c, trie_literal c rest m)
  end.

(** A middleware body that never awaits its continuation. *)
Inductive never_next : MwProg -> Prop :=
  | never_next_return : never_next MwReturn
  | never_next_throw t : never_next (MwThrow t)
  | never_next_set r k : never_next k -> never_next (MwSetRes r k)
  | never_next_get k : (∀ r, never_next (k r)) -> never_next (MwGetRes k).





(** The run settled, with [currentIndex] at least [j]. *)
Definition settles_from (j : nat) (result : ChainResult) : Prop :=
  match result with
  | Finished st | Threw _ st => (j ≤ currentIndex st)%nat
  | OutOfFuel => False
  end.

(** The path and the method [handle] works with for a request. *)
Definition request_pathname (rq : Request) : string :=
  URL_set_pathname (default (url rq) (URL_pathname (url rq))).

Definition request_method (rq : Request) : MethodValue :=
  default (MBits GET) (HTTP_METHODS (method rq)).

(** The routers the public methods of the class can build. *)
Inductive reachable : Zero -> Prop :=
  | reachable_new poolSize : reachable (Zero_new poolSize)
  | reachable_get p h r : reachable r -> reachable (get p h r)
  | reachable_post p h r : reachable r -> reachable (post p h r)
  | reachable_put p h r : reachable r -> reachable (put p h r)
  | reachable_delete p h r : reachable r -> reachable (delete_ p h r)
  | reachable_use pm h r : reachable r -> reachable (use pm h r).

(** The first character of the keys the registration methods write. *)
Definition method_digit (c : ascii) : bool :=
  Ascii.eqb c "1" || Ascii.eqb c "2" || Ascii.eqb c "4" || Ascii.eqb c "8".

Definition starts_with_method_digit (k : string) : bool :=
  match k with
  | EmptyString => false
  | String c _ => method_digit c
  end.

End Zero.

(** ** A concrete platform and routers to run the model on *)

(** Handler results other than responses, strings and [undefined]: a plain
    object, and one that [JSON.stringify] rejects. *)
Inductive DemoObj :=
  | PlainObject
  | CyclicObject.

Definition demo_stringify_throws (o : DemoObj) : option Thrown :=
  match o with
  | PlainObject => None
  | CyclicObject => Some (ErrorObject "Converting circular structure to JSON")
  end.

Fixpoint strip_prefix (pre s : string) : option string :=
  match pre, s with
  | EmptyString, _ => Some s
  | String a pre', String b s' =>
      if Ascii.eqb a b then strip_prefix pre' s' else None
  | String _ _, EmptyString => None
  end.

(** URLs of the host [http://x] parse; everything else here does not. *)
Definition demo_URL_pathname (s : string) : option string :=
  match strip_prefix "http://x" s with
  | Some EmptyString => Some "/"
  | Some rest => Some rest
  | None => None
  end.

(** The paths used below are stored as they are assigned. *)
Definition demo_set_pathname (s : string) : string := s.

#[local] Instance demo_platform : Platform DemoObj := {
  JSON_stringify_throws := demo_stringify_throws;
  URL_pathname := demo_URL_pathname;
  URL_set_pathname := demo_set_pathname
}.

Definition demo_handle := @handle unit DemoObj demo_platform.

Definition demo_resolve := @resolve unit DemoObj.

(** A handler that returns a string. *)
Definition respond (text : string) : @Handler unit DemoObj :=
  λ ctx, (res ctx, Normal (VString text)).

(** A handler that returns the value of a parameter. *)
Definition echo_param (name : string) : @Handler unit DemoObj :=
  λ ctx, (res ctx, Normal (VString (default "undefined" (params ctx !! name)))).

(** A handler that throws. *)
Definition failing (message : string) : @Handler unit DemoObj :=
  λ ctx, (res ctx, Abrupt (ErrorObject message)).

Definition demo_users : @Zero unit DemoObj :=
  get "/users/static-name" (respond "literal")
    (get "/users/:id" (echo_param "id") (Zero_new 2)).

Definition demo_users_node : @RouteNode unit DemoObj :=
  default emptyNode (static_get (root demo_users) "users").

Definition demo_users_param : @RouteNode unit DemoObj :=
  default emptyNode (param demo_users_node).

Definition demo_params : @Zero unit DemoObj :=
  get "/a/*" (respond "wild")
    (get "/a/:x/b" (echo_param "x") (Zero_new 1)).



Definition demo_files : @Zero unit DemoObj :=
  get "/files/*" (respond "file") (Zero_new 1).

Definition demo_files_node : @RouteNode unit DemoObj :=
  default emptyNode (static_get (root demo_files) "files").

(** A guard that answers 401 and does not await [next()], a pass-through
    middleware, and a route behind both. *)
Definition demo_unauthorized : @Response DemoObj :=
  mkResponse 401 [] (BodyText "Unauthorized").

Definition demo_guard : @Middleware unit DemoObj :=
  λ ctx, MwSetRes demo_unauthorized MwReturn.

Definition demo_pass : @Middleware unit DemoObj :=
  λ ctx, MwNext MwReturn MwThrow.

Definition demo_guarded : @Zero unit DemoObj :=
  use (inr demo_pass) None
    (use (inr demo_guard) None
       (get "/x" (respond "handler") (Zero_new 1))).

Definition demo_request_x : Request := mkRequest "http://x/x" "GET".

Definition demo_pathname := @request_pathname DemoObj demo_platform.

(** A relative URL does not parse. *)
Definition demo_request_relative : Request := mkRequest "/users/42" "GET".

Definition demo_pool_router : @Zero unit DemoObj :=
  get "/ok" (respond "ok") (get "/boom" (failing "kaboom") (Zero_new 0)).

Definition demo_pool_requests : list (Request * unit) :=
  [(mkRequest "http://x/boom" "GET", tt);
   (mkRequest "http://x/none" "GET", tt);
   (mkRequest "http://x/ok" "GET", tt)].

Definition demo_home : @Zero unit DemoObj :=
  get "/" (respond "home") (Zero_new 1).

(** The [pathname] setter of the platform's [URL] class on strings of plain
    segments: a path that does not start with the separator gets one. *)
Definition slash_set_pathname (s : string) : string :=
  if JsString.startsWith "/" s then s else "/" +:+ s.

#[local] Instance slash_platform : Platform DemoObj := {
  JSON_stringify_throws := demo_stringify_throws;
  URL_pathname := demo_URL_pathname;
  URL_set_pathname := slash_set_pathname
}.

(** A URL without scheme and without leading separator. *)
Definition demo_request_bare : Request := mkRequest "users/42" "GET".





Definition demo_health : @Zero unit DemoObj :=
  get "/health" (respond "healthy") (Zero_new 1).

(** ** Middleware shapes and lookups used to state further properties *)

Section Shapes.

Context {TEnv TObj : Type}.

(** [async (ctx, next) => { await next(); ctx.res = f(ctx.res); }] *)
Definition wrap (f : @Response TObj -> @Response TObj) : @Middleware TEnv TObj :=
  λ _, MwNext (MwGetRes (λ r, MwSetRes (f r) MwReturn)) MwThrow.

(** [use(mw)] for such a middleware: the node it appends. *)
Definition wrap_node (f : @Response TObj -> @Response TObj)
    : @MiddlewareNode TEnv TObj :=
  mkMiddlewareNode (Some (wrap f)) "*".

(** [use(wrap f1); use(wrap f2); ...] in that order. *)
Definition use_all (fs : list (@Response TObj -> @Response TObj))
    (r : @Zero TEnv TObj) : @Zero TEnv TObj :=
  foldl (λ acc f, use (inr (wrap f)) None acc) r fs.

(** [async (ctx, next) => { await next(); await next(); }] *)
Definition next_twice : @Middleware TEnv TObj :=
  λ _, MwNext (MwNext MwReturn MwThrow) MwThrow.

(** [async (ctx, next) => { try { await next(); } catch (e) { ctx.res = g(e); } }] *)
Definition recover (g : Thrown -> @Response TObj) : @Middleware TEnv TObj :=
  λ _, MwNext MwReturn (λ t, MwSetRes (g t) MwReturn).

(** The handler [#findHandler] returns, without the params object. *)
Fixpoint findOnly (node : @RouteNode TEnv TObj) (rest : list string)
    (m : MethodValue) : option (@Handler TEnv TObj) :=
  match rest with
  | [] => handlers_get node m
  | part :: rest' =>
      match static_get node part ≫= (λ c, findOnly c rest' m) with
      | Some h => Some h
      | None =>
          match param node ≫= (λ c, findOnly c rest' m) with
          | Some h => Some h
          | None => wildcard_get node m
          end
      end
  end.

(** A segment that [#add] stores as a literal child. *)
Definition is_literal (part : string) : bool :=
  negb (JsString.startsWith ":" part) && negb (String.eqb part "*").

(** What the fixed-length case of [#matchMiddlewarePath] asks of a pattern
    segment and the request segment at the same position. *)
Definition segment_matches (mPart rPart : string) : Prop :=
  JsString.startsWith ":" mPart = true ∨ mPart = rPart.

(** The registration methods of the class. *)
Definition registration_methods : list Z := [GET; POST; PUT; DELETE].

End Shapes.

(** A function on responses that adds a header. *)
Definition demo_tag (tag : string) : @Response DemoObj -> @Response DemoObj :=
  λ r, mkResponse (status r) (("X-Tag", tag) :: headers r) (body r).

Definition demo_route_x : @Zero unit DemoObj :=
  get "/x" (respond "handler") (Zero_new 1).

Definition demo_twice : @Zero unit DemoObj :=
  use (inr (wrap (demo_tag "inner"))) None
    (use (inr next_twice) None demo_route_x).

Definition demo_recovered : @Response DemoObj :=
  mkResponse 503 [] (BodyText "recovered").

Definition demo_recovering : @Zero unit DemoObj :=
  use (inr (wrap (demo_tag "inner"))) None
    (use (inr (recover (λ _, demo_recovered))) None
       (get "/x" (failing "kaboom") (Zero_new 1))).




Definition demo_only_middleware : @Zero unit DemoObj :=
  use (inr demo_guard) None (Zero_new 1).

(** * Properties *)

Section Properties.

Context {TEnv TObj : Type} `{!Platform TObj}.

Local Abbreviation Response := (@Response TObj) (only parsing).
Local Abbreviation Context := (@Context TEnv TObj) (only parsing).
Local Abbreviation Value := (@Value TObj) (only parsing).
Local Abbreviation Handler := (@Handler TEnv TObj) (only parsing).
Local Abbreviation RouteNode := (@RouteNode TEnv TObj) (only parsing).
Local Abbreviation MwProg := (@MwProg TObj) (only parsing).
Local Abbreviation Middleware := (@Middleware TEnv TObj) (only parsing).
Local Abbreviation MiddlewareNode := (@MiddlewareNode TEnv TObj) (only parsing).
Local Abbreviation Zero := (@Zero TEnv TObj) (only parsing).
Local Abbreviation ChainState := (@ChainState TObj) (only parsing).
Local Abbreviation ChainResult := (@ChainResult TObj) (only parsing).

Implicit Types (node child : RouteNode) (r : Zero) (h : Handler).
Implicit Types (find : RouteNode -> gmap string string
                       -> option Handler * gmap string string).
Implicit Types (nxt : ChainState -> ChainResult) (st : ChainState).
Implicit Types (mws : list MiddlewareNode).
Implicit Types (mw : Middleware) (e : TEnv) (rq : Request).

(** ** Strings *)

Lemma split_slash (s : string) :
  JsString.split (String "/" s) = "" :: JsString.split s.
Proof. reflexivity. Qed.

Lemma split_nonempty (s : string) : JsString.split s ≠ [].
Proof.
  destruct s as [|c s]; [done|]. simpl.
  destruct (Ascii.eqb c "/"); [done|]. by destruct (JsString.split s).
Qed.

Lemma split_no_slash (v : string) :
  JsString.includes "/" v = false -> JsString.split v = [v].
Proof.
  induction v as [|c v IH]; [done|]. simpl.
  destruct (Ascii.eqb c "/") eqn:Hc; [done|]. simpl.
  intros Hv. by rewrite (IH Hv).
Qed.

Lemma split_segment (v s : string) :
  JsString.includes "/" v = false ->
  JsString.split (v +:+ String "/" s) = v :: JsString.split s.
Proof.
  induction v as [|c v IH]; [done|]. simpl.
  destruct (Ascii.eqb c "/") eqn:Hc; [done|]. simpl.
  intros Hv. by rewrite (IH Hv).
Qed.

Lemma split_join (parts : list string) :
  parts ≠ [] ->
  Forall (λ p, JsString.includes "/" p = false) parts ->
  JsString.split (JsString.join parts) = parts.
Proof.
  induction parts as [|p [|q parts] IH]; [done| |]; intros _ Hall.
  - apply split_no_slash. by inversion Hall.
  - inversion Hall as [|? ? Hp Hrest]; subst.
    change (JsString.join (p :: q :: parts))
      with (p +:+ String "/" (JsString.join (q :: parts))).
    rewrite (split_segment _ _ Hp). f_equal. by apply IH.
Qed.

(** ** The trie descent *)

(** [#findHandler] as the source writes it, on the index. *)
Lemma findHandler_end node (parts : list string) ps m :
  findHandler node parts (length parts) ps m = (handlers_get node m, ps).
Proof. unfold findHandler. by rewrite drop_all. Qed.

Lemma findHandler_step node (parts : list string) index part ps m :
  parts !! index = Some part ->
  findHandler node parts index ps m =
    match try_static (λ c p, findHandler c parts (S index) p m) node part ps with
    | (Some h, ps1) => (Some h, ps1)
    | (None, ps1) =>
        match try_param (λ c p, findHandler c parts (S index) p m) node part ps1 with
        | (Some h, ps2) => (Some h, ps2)
        | (None, ps2) => (wildcard_get node m, ps2)
        end
    end.
Proof.
  intros Hpart. unfold findHandler.
  by rewrite (drop_S _ _ _ Hpart).
Qed.

(** An attempt that finds nothing only removes bindings, if the recursive
    call does. *)
Lemma try_static_fail_subseteq find node part (ps : gmap string string) :
  (∀ c p, (find c p).1 = None -> (find c p).2 ⊆ p) ->
  (try_static find node part ps).1 = None ->
  (try_static find node part ps).2 ⊆ ps.
Proof.
  intros Hfind. unfold try_static.
  destruct (static_get node part) as [child|]; [apply Hfind|done].
Qed.

Lemma try_param_fail_subseteq find node part (ps : gmap string string) :
  (∀ c p, (find c p).1 = None -> (find c p).2 ⊆ p) ->
  (try_param find node part ps).1 = None ->
  (try_param find node part ps).2 ⊆ ps.
Proof.
  intros Hfind. unfold try_param.
  destruct (param node) as [child|]; [|done].
  specialize (Hfind child (<[paramKey node:=part]> ps)).
  destruct (find child _) as [[h|] ps']; [done|].
  simpl in *. intros _.
  trans (delete (paramKey node) (<[paramKey node:=part]> ps)).
  - by apply delete_mono, Hfind.
  - rewrite delete_insert_eq. apply delete_subseteq.
Qed.

(** A descent that finds nothing only removes bindings: it leaves no
    binding behind that was not there before. *)
Lemma findHandlerFrom_fail_subseteq (rest : list string) :
  ∀ node (ps : gmap string string) m,
    (findHandlerFrom node rest ps m).1 = None ->
    (findHandlerFrom node rest ps m).2 ⊆ ps.
Proof.
  induction rest as [|part rest IH]; intros node ps m; simpl; [done|].
  pose proof (try_static_fail_subseteq
                (λ c p, findHandlerFrom c rest p m) node part ps
                (λ c p, IH c p m)) as Hs.
  destruct (try_static _ node part ps) as [[h|] ps1]; [done|].
  pose proof (try_param_fail_subseteq
                (λ c p, findHandlerFrom c rest p m) node part ps1
                (λ c p, IH c p m)) as Hp.
  destruct (try_param _ node part ps1) as [[h|] ps2]; [done|].
  simpl in *. intros _. trans ps1; auto.
Qed.

Lemma findHandlerFrom_fail_empty node (rest : list string) m :
  (findHandlerFrom node rest ∅ m).1 = None ->
  findHandlerFrom node rest ∅ m = (None, ∅).
Proof.
  intros Hnone. pose proof (findHandlerFrom_fail_subseteq _ _ _ _ Hnone) as Hsub.
  destruct (findHandlerFrom node rest ∅ m) as [o ps]; simpl in *. subst o.
  f_equal. apply map_empty. intros k.
  destruct (ps !! k) as [v|] eqn:Hk; [|done].
  eapply lookup_weaken in Hk; [|exact Hsub]. by rewrite lookup_empty in Hk.
Qed.


(** A method value that is not a number finds no handler in the trie. *)
Lemma findHandlerFrom_inherited (rest : list string) :
  ∀ node (ps : gmap string string) member,
    (findHandlerFrom node rest ps (MInherited member)).1 = None.
Proof.
  induction rest as [|part rest IH]; intros node ps member; simpl; [done|].
  assert (Hs : (try_static (λ c p, findHandlerFrom c rest p (MInherited member))
                  node part ps).1 = None).
  { unfold try_static. destruct (static_get node part); [apply IH|done]. }
  destruct (try_static _ node part ps) as [o ps1]. simpl in Hs. subst o.
  assert (Hp : (try_param (λ c p, findHandlerFrom c rest p (MInherited member))
                  node part ps1).1 = None).
  { unfold try_param. destruct (param node) as [child|]; [|done].
    specialize (IH child (<[paramKey node:=part]> ps1) member).
    by destruct (findHandlerFrom child rest _ _) as [[h|] ps2]. }
  destruct (try_param _ node part ps1) as [o ps2]. simpl in Hp. subst o.
  simpl. unfold wildcard_get. by destruct (wildcard node).
Qed.

(** The equations of the descent. *)
Lemma findHandlerFrom_nil node (ps : gmap string string) m :
  findHandlerFrom node [] ps m = (handlers_get node m, ps).
Proof. reflexivity. Qed.

Lemma findHandlerFrom_cons node part rest (ps : gmap string string) m :
  findHandlerFrom node (part :: rest) ps m =
    match try_static (λ c p, findHandlerFrom c rest p m) node part ps with
    | (Some h, ps1) => (Some h, ps1)
    | (None, ps1) =>
        match try_param (λ c p, findHandlerFrom c rest p m) node part ps1 with
        | (Some h, ps2) => (Some h, ps2)
        | (None, ps2) => (wildcard_get node m, ps2)
        end
    end.
Proof. reflexivity. Qed.

Lemma try_static_child find node part (ps : gmap string string) child :
  static_get node part = Some child ->
  try_static find node part ps = find child ps.
Proof. intros Hc. unfold try_static. by rewrite Hc. Qed.

Lemma try_static_absent find node part (ps : gmap string string) :
  static_get node part = None ->
  try_static find node part ps = (None, ps).
Proof. intros Hc. unfold try_static. by rewrite Hc. Qed.

Lemma try_param_child find node part (ps : gmap string string) child :
  param node = Some child ->
  try_param find node part ps =
    match find child (<[paramKey node := part]> ps) with
    | (Some h, ps') => (Some h, ps')
    | (None, ps') => (None, delete (paramKey node) ps')
    end.
Proof. intros Hc. unfold try_param. by rewrite Hc. Qed.

Lemma try_param_absent find node part (ps : gmap string string) :
  param node = None ->
  try_param find node part ps = (None, ps).
Proof. intros Hc. unfold try_param. by rewrite Hc. Qed.

(** ** Registration *)

Lemma static_get_mkNode hs (children : gmap string RouteNode) p pn w part :
  static_get (mkNode hs (Some children) p pn w) part = children !! part.
Proof. reflexivity. Qed.

(** After [#add] walked [parts], the route is in the trie. *)
Lemma add_parts_route (parts : list string) :
  ∀ node m h, trie_route (add_parts node parts m h) parts m = Some h.
Proof.
  induction parts as [|part parts IH]; intros node m h; simpl.
  - apply lookup_insert_eq.
  - destruct (JsString.startsWith ":" part); [apply IH|].
    destruct (String.eqb part "*"); [apply IH|].
    rewrite static_get_mkNode, lookup_insert_eq. apply IH.
Qed.

Lemma add_static_path m p h r :
  JsString.includes ":" p = false ->
  JsString.includes "*" p = false ->
  add m p h r = mkZero (root r) (<[staticKey (MBits m) p := h]> (staticRoutes r))
                       (middlewareRoutes r) (urlPool r).
Proof. intros Hc Hw. unfold add. by rewrite Hc, Hw. Qed.

Lemma add_trie_path m p h r :
  JsString.includes ":" p || JsString.includes "*" p = true ->
  add m p h r = mkZero (add_parts (root r) (drop 1 (JsString.split p)) m h)
                       (staticRoutes r) (middlewareRoutes r) (urlPool r).
Proof.
  intros Hp. unfold add.
  destruct (JsString.includes ":" p), (JsString.includes "*" p); done.
Qed.

Lemma static_get_add_parts node part rest m h :
  JsString.startsWith ":" part = false ->
  String.eqb part "*" = false ->
  static_get (add_parts node (part :: rest) m h) part =
    Some (add_parts (default emptyNode (static_get node part)) rest m h).
Proof.
  intros Hp Hw. simpl. rewrite Hp, Hw.
  rewrite static_get_mkNode, lookup_insert_eq. do 3 f_equal.
  unfold static_get. destruct (static node); simpl; [done|].
  by rewrite lookup_empty.
Qed.

Lemma param_add_parts node part rest m h :
  JsString.startsWith ":" part = true ->
  param (add_parts node (part :: rest) m h) =
    Some (add_parts (default emptyNode (param node)) rest m h) ∧
  paramName (add_parts node (part :: rest) m h) = Some (JsString.slice1 part).
Proof. intros Hp. simpl. by rewrite Hp. Qed.

Lemma static_add_parts_param node part rest m h :
  JsString.startsWith ":" part = true ->
  static (add_parts node (part :: rest) m h) = static node.
Proof. intros Hp. simpl. by rewrite Hp. Qed.

Lemma handlers_get_add_parts_nil node m h :
  handlers_get (add_parts node [] m h) (MBits m) = Some h.
Proof. simpl. apply lookup_insert_eq. Qed.

(** The trie only grows: a later registration never removes a route, it
    can only replace the handler a route stores. *)
Lemma add_parts_keeps_routes (pattern : list string) :
  ∀ node parts m m' h',
    is_Some (trie_route node pattern m) ->
    is_Some (trie_route (add_parts node parts m' h') pattern m).
Proof.
  induction pattern as [|part pattern IH]; intros node parts m m' h' Hsome.
  - destruct parts as [|part' rest']; simpl in *.
    + destruct (decide (m' = m)) as [->|Hne].
      * rewrite lookup_insert_eq. by eauto.
      * rewrite lookup_insert_ne by done. by destruct (handlers node).
    + destruct (JsString.startsWith ":" part'); [done|].
      by destruct (String.eqb part' "*").
  - destruct parts as [|part' rest']; [exact Hsome|].
    simpl in *.
    destruct (JsString.startsWith ":" part') eqn:Hp'; simpl.
    { destruct (JsString.startsWith ":" part); [|exact Hsome].
      destruct (param node) as [c|]; simpl in *; [by apply IH|].
      by destruct Hsome. }
    destruct (String.eqb part' "*") eqn:Hw'; simpl.
    { destruct (JsString.startsWith ":" part); [exact Hsome|].
      destruct (String.eqb part "*"); [|exact Hsome].
      destruct (wildcard node) as [c|]; simpl in *; [by apply IH|].
      by destruct Hsome. }
    destruct (JsString.startsWith ":" part); [exact Hsome|].
    destruct (String.eqb part "*"); [exact Hsome|].
    rewrite static_get_mkNode.
    assert (Hget : static_get node part = default ∅ (static node) !! part).
    { unfold static_get. destruct (static node); simpl; [done|].
      by rewrite lookup_empty. }
    rewrite Hget in Hsome.
    destruct (decide (part' = part)) as [->|Hne].
    + rewrite lookup_insert_eq. simpl.
      destruct (default ∅ (static node) !! part) as [c|]; simpl in *;
        [by apply IH|by destruct Hsome].
    + by rewrite lookup_insert_ne.
Qed.

Lemma add_keeps_trie_routes m p h r pattern m0 :
  is_Some (trie_route (root r) pattern m0) ->
  is_Some (trie_route (root (add m p h r)) pattern m0).
Proof.
  intros Hsome. unfold add.
  destruct (negb _ && negb _); simpl; [done|].
  by apply add_parts_keeps_routes.
Qed.

Lemma add_urlPool m p h r : urlPool (add m p h r) = urlPool r.
Proof. unfold add. by destruct (negb _ && negb _). Qed.

Lemma use_urlPool pm (hm : option Middleware) r :
  urlPool (use pm hm r) = urlPool r.
Proof. reflexivity. Qed.

(** What the registrations of the routes named in the properties below
    leave in a router, whatever it held before. *)
Lemma add_static_registered m p h r :
  JsString.includes ":" p = false ->
  JsString.includes "*" p = false ->
  staticRoutes (add m p h r) !! staticKey (MBits m) p = Some h.
Proof.
  intros Hc Hw. rewrite (add_static_path _ _ _ _ Hc Hw). simpl.
  apply lookup_insert_eq.
Qed.

Lemma add_users_id_registered m h r :
  ∃ users P,
    static_get (root (add m "/users/:id" h r)) "users" = Some users ∧
    param users = Some P ∧
    paramName users = Some "id" ∧
    handlers_get P (MBits m) = Some h.
Proof.
  change (root (add m "/users/:id" h r))
    with (add_parts (root r) ["users"; ":id"] m h).
  rewrite static_get_add_parts by done.
  eexists _, _. split; [done|]. split; [reflexivity|]. split; [done|].
  apply handlers_get_add_parts_nil.
Qed.

Lemma add_a_x_b_registered m h r :
  ∃ A P,
    static_get (root (add m "/a/:x/b" h r)) "a" = Some A ∧
    param A = Some P ∧
    paramName A = Some "x" ∧
    trie_route P ["b"] m = Some h.
Proof.
  change (root (add m "/a/:x/b" h r))
    with (add_parts (root r) ["a"; ":x"; "b"] m h).
  rewrite static_get_add_parts by done.
  eexists _, _. split; [done|]. split; [reflexivity|]. split; [done|].
  apply (add_parts_route ["b"]).
Qed.

Lemma add_files_wildcard_registered m h r :
  ∃ F,
    static_get (root (add m "/files/*" h r)) "files" = Some F ∧
    wildcard_get F (MBits m) = Some h.
Proof.
  change (root (add m "/files/*" h r))
    with (add_parts (root r) ["files"; "*"] m h).
  rewrite static_get_add_parts by done.
  eexists. split; [done|].
  apply (add_parts_route ["*"]).
Qed.

(** ** Route resolution *)

Lemma split_two (a seg : string) :
  JsString.includes "/" a = false ->
  JsString.includes "/" seg = false ->
  JsString.split (String "/" (a +:+ String "/" seg)) = [""; a; seg].
Proof.
  intros Ha Hseg.
  by rewrite split_slash, (split_segment _ _ Ha), (split_no_slash _ Hseg).
Qed.

(** C1. Precedence of the exact literal over the named parameter: in every
    router that holds a literal route [/users/static-name] and the
    parametric route [/users/:id] for a method (the node of [users] has a
    parametric child that stores the handler), a request to
    [/users/static-name] resolves to the literal route's handler; and a
    request to [/users/seg], for any single segment [seg], resolves to the
    literal route registered for that path if there is one (in the static
    table, else in the trie) and to the parametric route's handler, with the
    segment bound under the parameter's name, in every other case. *)
Theorem precedence_literal_over_param (r : Zero) (m : Z) (hl hp : Handler)
    (users P : RouteNode) :
  staticRoutes r !! staticKey (MBits m) "/users/static-name" = Some hl ->
  static_get (root r) "users" = Some users ->
  param users = Some P ->
  handlers_get P (MBits m) = Some hp ->
  resolve r "/users/static-name" (MBits m) = Some (hl, ∅) ∧
  ∀ seg,
    JsString.includes "/" seg = false ->
    resolve r ("/users/" +:+ seg) (MBits m) =
      match staticRoutes r !! staticKey (MBits m) ("/users/" +:+ seg) with
      | Some h => Some (h, ∅)
      | None =>
          match trie_literal (root r) ["users"; seg] (MBits m) with
          | Some h => Some (h, ∅)
          | None => Some (hp, {[paramKey users := seg]})
          end
      end.
Proof.
  intros Hlit Husers Hparam Hhp. split.
  { unfold resolve. by rewrite Hlit. }
  intros seg Hseg. unfold resolve.
  destruct (staticRoutes r !! staticKey (MBits m) ("/users/" +:+ seg));
    [done|].
  change ("/users/" +:+ seg) with (String "/" ("users" +:+ String "/" seg)).
  rewrite split_two by done.
  unfold findHandler. simpl drop. cbn [trie_literal].
  rewrite Husers. cbn [mbind option_bind].
  assert (Husers_seg : findHandlerFrom users [seg] ∅ (MBits m) =
            match static_get users seg ≫= (λ c, handlers_get c (MBits m)) with
            | Some h => (Some h, ∅)
            | None => (Some hp, {[paramKey users := seg]})
            end).
  { rewrite findHandlerFrom_cons.
    destruct (static_get users seg) as [lit|] eqn:Hlitc.
    - rewrite (try_static_child _ _ _ _ _ Hlitc), findHandlerFrom_nil.
      cbn [mbind option_bind].
      destruct (handlers_get lit (MBits m)); [done|].
      by rewrite (try_param_child _ _ _ _ _ Hparam), findHandlerFrom_nil, Hhp.
    - rewrite (try_static_absent _ _ _ _ Hlitc).
      by rewrite (try_param_child _ _ _ _ _ Hparam), findHandlerFrom_nil, Hhp. }
  rewrite findHandlerFrom_cons, (try_static_child _ _ _ _ _ Husers).
  cbv beta. rewrite Husers_seg.
  by destruct (static_get users seg ≫= _).
Qed.

(** Resolution through a parametric child at the second position: the
    static table first, then a literal child for the segment, then the
    parametric child, which binds the segment under the name stored at the
    node. *)
Lemma resolve_through_param (r : Zero) (m : Z) (h : Handler)
    (A P B : RouteNode) (name lit value : string) :
  static_get (root r) "a" = Some A ->
  param A = Some P ->
  paramName A = Some name ->
  static_get P lit = Some B ->
  handlers_get B (MBits m) = Some h ->
  JsString.includes "/" value = false ->
  JsString.includes "/" lit = false ->
  resolve r ("/a/" +:+ value +:+ String "/" lit) (MBits m) =
    match staticRoutes r
            !! staticKey (MBits m) ("/a/" +:+ value +:+ String "/" lit) with
    | Some h' => Some (h', ∅)
    | None =>
        match try_static (λ c p, findHandlerFrom c [lit] p (MBits m))
                         A value ∅ with
        | (Some h', ps) => Some (h', ps)
        | (None, _) => Some (h, {[name := value]})
        end
    end.
Proof.
  intros HA HP Hname HB HhB Hvalue Hlit. unfold resolve.
  destruct (staticRoutes r !! _); [done|].
  change ("/a/" +:+ value +:+ String "/" lit)
    with (String "/" ("a" +:+ String "/" (value +:+ String "/" lit))).
  rewrite split_slash, split_segment, split_segment by done.
  rewrite split_no_slash by done.
  unfold findHandler. simpl drop.
  rewrite findHandlerFrom_cons, (try_static_child _ _ _ _ _ HA). cbv beta.
  rewrite findHandlerFrom_cons.
  pose proof (try_static_fail_subseteq
                (λ c p, findHandlerFrom c [lit] p (MBits m)) A value ∅
                (λ c p, findHandlerFrom_fail_subseteq [lit] c p (MBits m))) as Hs.
  destruct (try_static _ A value ∅) as [[h'|] ps1]; [done|].
  assert (ps1 = ∅) as ->.
  { apply map_empty. intros k. destruct (ps1 !! k) as [v|] eqn:Hk; [|done].
    eapply lookup_weaken in Hk; [|by apply Hs]. by rewrite lookup_empty in Hk. }
  rewrite (try_param_child _ _ _ _ _ HP). unfold paramKey. rewrite Hname.
  simpl default.
  rewrite findHandlerFrom_cons, (try_static_child _ _ _ _ _ HB).
  by rewrite findHandlerFrom_nil, HhB.
Qed.


(** C3. In every router whose trie holds the route [/files/*] for a method
    (the node of [files] has a wildcard child that stores the handler), a
    request to [/files/] followed by any positive number of segments
    resolves to the wildcard route's handler whenever no branch of higher
    precedence (static table, literal child, parametric child) yields a
    handler: the wildcard child's handler is returned as it is, whatever the
    number of segments that remain. *)
Theorem wildcard_absorbs_remaining_segments (r : Zero) (m : Z) (hw : Handler)
    (F : RouteNode) :
  static_get (root r) "files" = Some F ->
  wildcard_get F (MBits m) = Some hw ->
  ∀ seg rest,
    Forall (λ p, JsString.includes "/" p = false) (seg :: rest) ->
    resolve r ("/files/" +:+ JsString.join (seg :: rest)) (MBits m) =
      match staticRoutes r
              !! staticKey (MBits m) ("/files/" +:+ JsString.join (seg :: rest)) with
      | Some h => Some (h, ∅)
      | None =>
          match try_static (λ c p, findHandlerFrom c rest p (MBits m)) F seg ∅ with
          | (Some h, ps) => Some (h, ps)
          | (None, ps1) =>
              match try_param (λ c p, findHandlerFrom c rest p (MBits m))
                              F seg ps1 with
              | (Some h, ps) => Some (h, ps)
              | (None, _) => Some (hw, ∅)
              end
          end
      end.
Proof.
  intros HF Hw seg rest Hall. unfold resolve.
  destruct (staticRoutes r !! _); [done|].
  change ("/files/" +:+ JsString.join (seg :: rest))
    with (String "/" ("files" +:+ String "/" (JsString.join (seg :: rest)))).
  rewrite split_slash, split_segment, split_join by done.
  unfold findHandler. simpl drop.
  rewrite findHandlerFrom_cons, (try_static_child _ _ _ _ _ HF). cbv beta.
  rewrite findHandlerFrom_cons.
  pose proof (try_static_fail_subseteq
                (λ c p, findHandlerFrom c rest p (MBits m)) F seg ∅
                (λ c p, findHandlerFrom_fail_subseteq rest c p (MBits m))) as Hs.
  destruct (try_static _ F seg ∅) as [[h'|] ps1]; [done|].
  pose proof (try_param_fail_subseteq
                (λ c p, findHandlerFrom c rest p (MBits m)) F seg ps1
                (λ c p, findHandlerFrom_fail_subseteq rest c p (MBits m))) as Hp.
  destruct (try_param _ F seg ps1) as [[h'|] ps2]; [done|].
  rewrite Hw. simpl in *.
  assert (ps2 = ∅) as ->; [|done].
  apply map_empty. intros k. destruct (ps2 !! k) as [v|] eqn:Hk; [|done].
  eapply lookup_weaken in Hk; [|by apply Hp].
  eapply lookup_weaken in Hk; [|by apply Hs]. by rewrite lookup_empty in Hk.
Qed.

(** C7. A node has one slot for its parametric child and one for its name.
    Registering [/a/:x/b] and then [/a/:y/c] in any router leaves the node
    of [a] with the name [y] (it was [x] in between) and with a single
    parametric child that carries both routes; from then on a request to
    [/a/VALUE/b] that reaches the earlier route binds VALUE under [y], as a
    request to [/a/VALUE/c] does. In a router with no other routes these
    are the handlers found. *)
Theorem param_name_last_write_wins (r : Zero) (m1 m2 : Z) (h1 h2 : Handler) :
  let r1 := add m1 "/a/:x/b" h1 r in
  let r2 := add m2 "/a/:y/c" h2 r1 in
  ∃ A1 A2 P1,
    static_get (root r1) "a" = Some A1 ∧
    paramName A1 = Some "x" ∧ param A1 = Some P1 ∧
    static_get (root r2) "a" = Some A2 ∧
    paramName A2 = Some "y" ∧ param A2 = Some (add_parts P1 ["c"] m2 h2) ∧
    trie_route (root r2) ["a"; ":x"; "b"] m1 = Some h1 ∧
    trie_route (root r2) ["a"; ":y"; "c"] m2 = Some h2 ∧
    (∀ value,
        JsString.includes "/" value = false ->
        resolve r2 ("/a/" +:+ value +:+ "/b") (MBits m1) =
          match staticRoutes r2
                  !! staticKey (MBits m1) ("/a/" +:+ value +:+ "/b") with
          | Some h' => Some (h', ∅)
          | None =>
              match try_static (λ c p, findHandlerFrom c ["b"] p (MBits m1))
                               A2 value ∅ with
              | (Some h', ps) => Some (h', ps)
              | (None, _) => Some (h1, {["y" := value]})
              end
          end) ∧
    (root r = emptyNode -> staticRoutes r = ∅ ->
     ∀ value,
        JsString.includes "/" value = false ->
        resolve r2 ("/a/" +:+ value +:+ "/b") (MBits m1)
          = Some (h1, {["y" := value]}) ∧
        resolve r2 ("/a/" +:+ value +:+ "/c") (MBits m2)
          = Some (h2, {["y" := value]})).
Proof.
  intros r1 r2.
  assert (Hroot1 : root r1 = add_parts (root r) ["a"; ":x"; "b"] m1 h1)
    by reflexivity.
  assert (Hroot2 : root r2 = add_parts (root r1) ["a"; ":y"; "c"] m2 h2)
    by reflexivity.
  assert (Hst2 : staticRoutes r2 = staticRoutes r) by reflexivity.
  set (A0 := default emptyNode (static_get (root r) "a")).
  set (A1 := add_parts A0 [":x"; "b"] m1 h1).
  set (A2 := add_parts A1 [":y"; "c"] m2 h2).
  set (P1 := add_parts (default emptyNode (param A0)) ["b"] m1 h1).
  assert (HA1 : static_get (root r1) "a" = Some A1).
  { rewrite Hroot1. by rewrite static_get_add_parts. }
  assert (HA2 : static_get (root r2) "a" = Some A2).
  { rewrite Hroot2. rewrite static_get_add_parts by done. by rewrite HA1. }
  assert (HP1 : param A1 = Some P1) by reflexivity.
  assert (HP2 : param A2 = Some (add_parts P1 ["c"] m2 h2)) by reflexivity.
  assert (HB : static_get (add_parts P1 ["c"] m2 h2) "b"
               = static_get P1 "b").
  { unfold static_get. simpl. by rewrite lookup_insert_ne. }
  assert (HB1 : static_get P1 "b"
     = Some (add_parts (default emptyNode
                          (static_get (default emptyNode (param A0)) "b"))
                       [] m1 h1)).
  { unfold P1. by rewrite static_get_add_parts. }
  assert (HC : static_get (add_parts P1 ["c"] m2 h2) "c"
     = Some (add_parts (default emptyNode (static_get P1 "c")) [] m2 h2)).
  { by rewrite static_get_add_parts. }
  exists A1, A2, P1. split_and!; try done.
  - change (trie_route (root r2) ["a"; ":x"; "b"] m1)
      with (static_get (root r2) "a" ≫= (λ A, param A ≫= (λ P,
              static_get P "b" ≫= (λ B, handlers_get B (MBits m1))))).
    rewrite HA2. cbn [mbind option_bind]. rewrite HP2. cbn [mbind option_bind].
    rewrite HB, HB1. cbn [mbind option_bind].
    apply handlers_get_add_parts_nil.
  - rewrite Hroot2. apply add_parts_route.
  - intros value Hvalue.
    eapply (resolve_through_param r2 m1 h1 A2 _ _ "y" "b" value);
      [done|done|done| |apply handlers_get_add_parts_nil|done|done].
    by rewrite HB, HB1.
  - intros Hroot Hstatic value Hvalue. split.
    + rewrite (resolve_through_param r2 m1 h1 A2 _ _ "y" "b" value
                 HA2 HP2 eq_refl (eq_trans HB HB1)
                 (handlers_get_add_parts_nil _ _ _)) by done.
      rewrite Hst2, Hstatic, lookup_empty.
      rewrite try_static_absent; [done|].
      unfold A2, A1, A0. rewrite Hroot. reflexivity.
    + rewrite (resolve_through_param r2 m2 h2 A2 _ _ "y" "c" value
                 HA2 HP2 eq_refl HC
                 (handlers_get_add_parts_nil _ _ _)) by done.
      rewrite Hst2, Hstatic, lookup_empty.
      rewrite try_static_absent; [done|].
      unfold A2, A1, A0. rewrite Hroot. reflexivity.
Qed.

(** ** The middleware chain settles *)

Lemma settles_from_le j j' (result : ChainResult) :
  (j' ≤ j)%nat -> settles_from j result -> settles_from j' result.
Proof. destruct result; simpl; lia. Qed.

Lemma runMw_settles nxt j (p : MwProg) :
  (∀ st, (j ≤ currentIndex st)%nat ->
         settles_from (currentIndex st) (nxt st)) ->
  ∀ st, (j ≤ currentIndex st)%nat ->
        settles_from (currentIndex st) (runMw nxt p st).
Proof.
  intros Hnxt.
  induction p as [|t|r k IH|k IH|k IHk onThrow IHt|]; intros st Hj; simpl.
  - lia.
  - lia.
  - by apply (IH (mkChainState r (currentIndex st) (activations st))).
  - by apply IH.
  - pose proof (Hnxt st Hj) as Hst.
    destruct (nxt st) as [st'|t st'|]; simpl in Hst; [| |done].
    + eapply settles_from_le; [exact Hst|]. apply IHk. lia.
    + eapply settles_from_le; [exact Hst|]. apply IHt. lia.
  - pose proof (Hnxt st Hj) as Hst.
    destruct (nxt st) as [st'|t st'|]; simpl in Hst; [exact Hst|exact Hst|done].
Qed.

(** The fuel [#execute] is modelled with is enough: a nested call of [next]
    starts from a larger index. *)
Lemma next_settles mws h ps rq e :
  ∀ fuel st,
    (length mws - currentIndex st < fuel)%nat ->
    settles_from (currentIndex st) (next mws h ps rq e fuel st).
Proof.
  induction fuel as [|fuel IH]; intros st Hfuel; [lia|]. simpl.
  destruct (currentIndex st <? length mws)%nat eqn:Hlt.
  - apply Nat.ltb_lt in Hlt.
    destruct (mws !! currentIndex st) as [[[mw|] pth]|]; simpl; try lia.
    eapply settles_from_le;
      [|apply (runMw_settles _ (S (currentIndex st)));
        [|simpl; lia]]; simpl; [lia|].
    intros st' Hst'. apply IH. lia.
  - destruct (h _) as [res' [result|t]]; simpl; [|lia].
    destruct (formatResponse result); simpl; lia.
Qed.

(** More fuel does not change a run that settled. *)
Lemma runMw_fuel nxt nxt' (p : MwProg) :
  (∀ st result, nxt st = result -> result ≠ OutOfFuel -> nxt' st = result) ->
  ∀ st result,
    runMw nxt p st = result -> result ≠ OutOfFuel -> runMw nxt' p st = result.
Proof.
  intros Hnxt.
  induction p as [|t|r k IH|k IH|k IHk onThrow IHt|]; intros st result; simpl;
    try done.
  - apply IH.
  - apply IH.
  - destruct (nxt st) as [st'|t st'|] eqn:Hst.
    + rewrite (Hnxt _ _ Hst) by done. apply IHk.
    + rewrite (Hnxt _ _ Hst) by done. apply IHt.
    + by intros <-.
  - destruct (nxt st) as [st'|t st'|] eqn:Hst.
    + by rewrite (Hnxt _ _ Hst).
    + by rewrite (Hnxt _ _ Hst).
    + by intros <-.
Qed.

Lemma next_S mws h ps rq e fuel st :
  next mws h ps rq e (S fuel) st =
    if (currentIndex st <? length mws)%nat then
      let st' := mkChainState (ctx_res st) (S (currentIndex st))
                   (activations st ++ [RanMiddleware (currentIndex st)]) in
      match mws !! currentIndex st with
      | Some (mkMiddlewareNode (Some mw) _) =>
          runMw (next mws h ps rq e fuel) (mw (ctx_of ps rq e st')) st'
      | _ => Threw (ErrorObject "middleware.handler is not a function") st'
      end
    else
      let st' := mkChainState (ctx_res st) (currentIndex st)
                   (activations st ++ [RanHandler]) in
      match h (ctx_of ps rq e st') with
      | (res', Normal result) =>
          match formatResponse result with
          | Normal r =>
              Finished (mkChainState r (currentIndex st) (activations st'))
          | Abrupt t =>
              Threw t (mkChainState res' (currentIndex st) (activations st'))
          end
      | (res', Abrupt t) =>
          Threw t (mkChainState res' (currentIndex st) (activations st'))
      end.
Proof. reflexivity. Qed.

Lemma next_fuel mws h ps rq e :
  ∀ fuel st result,
    next mws h ps rq e fuel st = result ->
    result ≠ OutOfFuel ->
    next mws h ps rq e (S fuel) st = result.
Proof.
  induction fuel as [|fuel IH]; intros st result; [by intros <-|].
  rewrite (next_S _ _ _ _ _ (S fuel)), (next_S _ _ _ _ _ fuel).
  destruct (currentIndex st <? length mws)%nat; [|done].
  destruct (mws !! currentIndex st) as [[[mw|] pth]|]; try done.
  cbv zeta. by apply runMw_fuel.
Qed.

Lemma run_chain_settles r h ps rq e p :
  run_chain r h ps rq e p ≠ OutOfFuel.
Proof.
  unfold run_chain.
  pose proof (next_settles (applicable r p) h ps rq e
                (S (length (applicable r p))) chain_start) as Hs.
  simpl currentIndex in Hs. intros Heq. rewrite Heq in Hs. apply Hs. lia.
Qed.

Lemma execute_total r h ps rq e p :
  is_Some (execute r h ps rq e p).
Proof.
  unfold execute. pose proof (run_chain_settles r h ps rq e p) as Hs.
  destruct (run_chain r h ps rq e p); by eauto.
Qed.

(** ** The dispatcher *)

Lemma processRequest_resolve r rq e p m :
  processRequest r rq e p m =
    match resolve r p m with
    | Some (h, ps) => execute r h ps rq e p
    | None => Some Response_notFound
    end.
Proof.
  unfold processRequest, resolve.
  destruct (staticRoutes r !! staticKey m p); [done|].
  by destruct (findHandler _ _ _ _ _) as [[h|] ps].
Qed.

Lemma processRequest_total r rq e p m :
  is_Some (processRequest r rq e p m).
Proof.
  rewrite processRequest_resolve.
  destruct (resolve r p m) as [[h ps]|]; [apply execute_total|by eauto].
Qed.

Lemma getUrl_pathname u pool :
  pathname (getUrl u pool).1 = URL_set_pathname (default u (URL_pathname u)).
Proof.
  unfold getUrl, pool_pop.
  destruct (URL_pathname u); simpl; by destruct (default URL_fresh (last pool)).
Qed.

Lemma getUrl_pool u pool : (getUrl u pool).2 = removelast pool.
Proof. unfold getUrl, pool_pop. by destruct (URL_pathname u). Qed.

(** [handle] in one equation: the lookup and the chain do not read the
    pool, and the object taken from it is pushed back whatever the
    response is. *)
Lemma handle_eq rq e r :
  handle rq e r =
    match processRequest r rq e (request_pathname rq) (request_method rq) with
    | Some response =>
        Some (response,
              mkZero (root r) (staticRoutes r) (middlewareRoutes r)
                     (removelast (urlPool r) ++ [mkURL (request_pathname rq)]))
    | None => None
    end.
Proof.
  unfold handle.
  pose proof (getUrl_pathname (url rq) (urlPool r)) as Hpath.
  pose proof (getUrl_pool (url rq) (urlPool r)) as Hpool.
  destruct (getUrl (url rq) (urlPool r)) as [[u] pool']. simpl in *.
  subst pool' u. fold (request_pathname rq). fold (request_method rq).
  reflexivity.
Qed.


(** The first call of [next] when no middleware applies. *)
Lemma run_chain_no_middleware r h ps rq e p :
  applicable r p = [] ->
  run_chain r h ps rq e p =
    match h (mkContext ps rq e Response_default) with
    | (res', Normal result) =>
        match formatResponse result with
        | Normal response => Finished (mkChainState response 0 [RanHandler])
        | Abrupt t => Threw t (mkChainState res' 0 [RanHandler])
        end
    | (res', Abrupt t) => Threw t (mkChainState res' 0 [RanHandler])
    end.
Proof. intros Hnone. unfold run_chain. rewrite Hnone. reflexivity. Qed.

(** The first call of [next] when a middleware applies. *)
Lemma run_chain_first_middleware r h ps rq e p mw pth rest :
  applicable r p = mkMiddlewareNode (Some mw) pth :: rest ->
  run_chain r h ps rq e p =
    runMw (next (mkMiddlewareNode (Some mw) pth :: rest) h ps rq e
                (S (length rest)))
          (mw (mkContext ps rq e Response_default))
          (mkChainState Response_default 1 [RanMiddleware 0]).
Proof.
  intros Happ. unfold run_chain. rewrite Happ. reflexivity.
Qed.





(** A body that never awaits its continuation runs the same whatever the
    continuation is, and starts nothing. *)
Lemma runMw_never_next (p : MwProg) :
  never_next p ->
  ∀ nxt nxt' st, runMw nxt p st = runMw nxt' p st.
Proof.
  induction 1 as [|t|r k Hk IH|k Hk IH]; intros nxt nxt' st; simpl; auto.
Qed.

Lemma runMw_never_next_activations (p : MwProg) :
  never_next p ->
  ∀ nxt st st',
    runMw nxt p st = Finished st' ->
    activations st' = activations st ∧ currentIndex st' = currentIndex st.
Proof.
  induction 1 as [|t|r k Hk IH|k Hk IH]; intros nxt st st'; simpl.
  - by intros [= <-].
  - done.
  - intros Hrun. by apply IH in Hrun.
  - intros Hrun. by apply IH in Hrun.
Qed.

(** C5. When the first middleware that applies to a request returns
    without ever awaiting its continuation, the chain of the request is that
    middleware's run alone: no later middleware and no handler is started,
    and [handle] returns what the middleware left in [ctx.res], which is the
    default empty response if it assigned none. *)
Theorem middleware_short_circuit (r : Zero) (rq : Request) (e : TEnv)
    (h : Handler) (ps : gmap string string)
    (m1 : Middleware) (pth : string) (rest : list MiddlewareNode)
    (nxt : ChainState -> ChainResult) (st : ChainState) :
  resolve r (request_pathname rq) (request_method rq) = Some (h, ps) ->
  applicable r (request_pathname rq) = mkMiddlewareNode (Some m1) pth :: rest ->
  never_next (m1 (mkContext ps rq e Response_default)) ->
  runMw nxt (m1 (mkContext ps rq e Response_default))
        (mkChainState Response_default 1 [RanMiddleware 0]) = Finished st ->
  run_chain r h ps rq e (request_pathname rq) = Finished st ∧
  activations st = [RanMiddleware 0] ∧
  (∃ r', handle rq e r = Some (ctx_res st, r')) ∧
  (m1 (mkContext ps rq e Response_default) = MwReturn ->
   ctx_res st = Response_default).
Proof.
  intros Hres Happ Hnever Hrun.
  assert (Hchain : run_chain r h ps rq e (request_pathname rq) = Finished st).
  { rewrite (run_chain_first_middleware _ _ _ _ _ _ _ _ _ Happ).
    by rewrite (runMw_never_next _ Hnever _ nxt). }
  split; [done|]. split; [|split].
  - by destruct (runMw_never_next_activations _ Hnever _ _ _ Hrun).
  - rewrite handle_eq, processRequest_resolve, Hres. unfold execute.
    rewrite Hchain. by eauto.
  - intros Hret. rewrite Hret in Hrun. simpl in Hrun. by injection Hrun as <-.
Qed.

(** C6. Every request takes one object from the pool, or a fresh one when
    the pool is empty, and pushes exactly that one object back, whatever the
    response is (the handler's, not found, or the error response). So any
    sequence of requests against a router whose pool holds [K] objects gets
    a response for every request, however many there are, and the pool
    holds [K] objects afterwards (one, if [K] is zero and a request was
    served). *)
Theorem pool_balance (K : nat) (rqs : list (Request * TEnv)) (r : Zero) :
  length (urlPool r) = K ->
  (∀ rq e,
     (getUrl (url rq) (urlPool r)).2 = removelast (urlPool r) ∧
     ∃ response,
       handle rq e r =
         Some (response,
               mkZero (root r) (staticRoutes r) (middlewareRoutes r)
                      (removelast (urlPool r) ++ [mkURL (request_pathname rq)]))) ∧
  ∃ responses r',
    handle_all rqs r = Some (responses, r') ∧
    length responses = length rqs ∧
    length (urlPool r') =
      match rqs with
      | [] => K
      | _ :: _ => (K `max` 1)%nat
      end.
Proof.
  intros <-.
  assert (Hone : ∀ rq e r0, ∃ response,
            handle rq e r0 =
              Some (response,
                    mkZero (root r0) (staticRoutes r0) (middlewareRoutes r0)
                           (removelast (urlPool r0)
                              ++ [mkURL (request_pathname rq)]))).
  { intros rq e r0. rewrite handle_eq.
    destruct (processRequest_total r0 rq e (request_pathname rq)
                (request_method rq)) as [response ->]. by eauto. }
  split.
  { intros rq e. split; [apply getUrl_pool|apply Hone]. }
  revert r. induction rqs as [|[rq e] rqs IH]; intros r; simpl.
  - by eauto.
  - destruct (Hone rq e r) as [response ->].
    set (r1 := mkZero _ _ _ _).
    destruct (IH r1) as (responses & r' & -> & Hlen & Hpool).
    eexists _, _. split; [done|]. split; [simpl; by rewrite Hlen|].
    rewrite Hpool. unfold r1. simpl.
    assert (Hr1 : length (removelast (urlPool r) ++ [mkURL (request_pathname rq)])
                  = (length (urlPool r) `max` 1)%nat).
    { rewrite length_app. simpl.
      destruct (urlPool r) as [|u pool] using rev_ind; [done|].
      rewrite removelast_last, length_app. simpl. lia. }
    destruct rqs; rewrite Hr1; lia.
Qed.

(** The constructor fills the pool with [poolSize] objects and the
    registration methods leave it alone. *)
Lemma Zero_new_pool poolSize :
  length (urlPool (Zero_new poolSize : Zero)) = poolSize.
Proof. apply length_replicate. Qed.

(** The keys the registration methods write tell the method and the path
    apart: the method is one digit, the path follows. *)
Lemma staticKey_inj m m' p p' :
  m ∈ registration_methods -> m' ∈ registration_methods ->
  staticKey (MBits m') p' = staticKey (MBits m) p -> m' = m ∧ p' = p.
Proof.
  unfold registration_methods. intros Hm Hm' Hkey.
  repeat (apply elem_of_cons in Hm as [->|Hm]);
    try (by apply elem_of_nil in Hm);
    repeat (apply elem_of_cons in Hm' as [->|Hm']);
    try (by apply elem_of_nil in Hm');
    vm_compute in Hkey; try discriminate Hkey; injection Hkey as Hp;
    by split.
Qed.

(** C8. Registering a path with neither marker stores the handler in the
    static table and leaves the trie as it was. The entry is the one of the
    method and the path: among the keys of GET, POST, PUT and DELETE with
    any path, the table answers with the new handler for this method and
    this path and with what it held before for every other pair. A lookup
    for that method and path then answers from the table, with an empty
    params object, whatever the trie holds, and [#processRequest] executes
    that handler; when no middleware applies to the path, [handle] returns
    the handler's result: a [Response] as it is, the default response for
    [undefined], a string as a text body, any other value as its JSON (and
    the error response if the handler throws or the value has no JSON). *)
Theorem static_route_fast_path (r : Zero) (m : Z) (p : string) (h : Handler) :
  JsString.includes ":" p = false ->
  JsString.includes "*" p = false ->
  root (add m p h r) = root r ∧
  staticRoutes (add m p h r) = <[staticKey (MBits m) p := h]> (staticRoutes r) ∧
  (∀ m' p',
      m ∈ registration_methods -> m' ∈ registration_methods ->
      staticRoutes (add m p h r) !! staticKey (MBits m') p' =
        if decide (m' = m ∧ p' = p) then Some h
        else staticRoutes r !! staticKey (MBits m') p') ∧
  resolve (add m p h r) p (MBits m) = Some (h, ∅) ∧
  (∀ rq e, processRequest (add m p h r) rq e p (MBits m)
           = execute (add m p h r) h ∅ rq e p) ∧
  (∀ rq e,
      request_pathname rq = p ->
      request_method rq = MBits m ->
      applicable (add m p h r) p = [] ->
      ∃ r', handle rq e (add m p h r) =
        Some (match h (mkContext ∅ rq e (mkResponse 200 [] BodyEmpty)) with
              | (_, Normal (VResponse response)) => response
              | (_, Normal VUndefined) => mkResponse 200 [] BodyEmpty
              | (_, Normal (VString s)) =>
                  mkResponse 200 [("Content-Type", "text/plain")] (BodyText s)
              | (_, Normal (VOther o)) =>
                  match JSON_stringify_throws o with
                  | None =>
                      mkResponse 200 [("Content-Type", "application/json")]
                                 (BodyJSON o)
                  | Some (ErrorObject message) =>
                      mkResponse 500 [("Content-Type", "application/json")]
                                 (BodyErrorJSON message)
                  | Some (NonError _) =>
                      mkResponse 500 [("Content-Type", "application/json")]
                                 (BodyErrorJSON "Unknown error occurred")
                  end
              | (_, Abrupt (ErrorObject message)) =>
                  mkResponse 500 [("Content-Type", "application/json")]
                             (BodyErrorJSON message)
              | (_, Abrupt (NonError _)) =>
                  mkResponse 500 [("Content-Type", "application/json")]
                             (BodyErrorJSON "Unknown error occurred")
              end, r')).
Proof.
  intros Hc Hw. rewrite (add_static_path _ _ _ _ Hc Hw).
  set (r' := mkZero _ _ _ _).
  assert (Hres : resolve r' p (MBits m) = Some (h, ∅)).
  { unfold resolve, r'. simpl. by rewrite lookup_insert_eq. }
  split; [done|]. split; [done|]. split; [|split; [done|split]].
  - intros m' p' Hm Hm'. unfold r'. simpl.
    destruct (decide (m' = m ∧ p' = p)) as [[-> ->]|Hne].
    + by rewrite lookup_insert_eq.
    + rewrite lookup_insert_ne; [done|].
      intros Hkey. apply Hne. symmetry in Hkey.
      by apply (staticKey_inj m m' p p' Hm Hm').
  - intros rq e. by rewrite processRequest_resolve, Hres.
  - intros rq e Hp Hm Happ. rewrite handle_eq, Hp, Hm.
    rewrite processRequest_resolve, Hres. unfold execute.
    rewrite (run_chain_no_middleware _ _ _ _ _ _ Happ).
    change (mkResponse 200 [] BodyEmpty) with (@Response_default TObj).
    destruct (h _) as [res' [[response| |s|o]|[message|d]]]; simpl;
      try (by eauto).
    destruct (JSON_stringify_throws o) as [[message|d]|]; simpl; by eauto.
Qed.

(** C9. When the URL of a request does not parse, [handle] still returns a
    response. The raw URL string is assigned to the [pathname] of the pooled
    object, and the path the route is looked up and executed with is the
    value read back from it, that is, the raw string as the platform's
    setter stores it; it is the raw string itself wherever the setter stores
    it unchanged. *)
Theorem malformed_url_degrades (rq : Request) (e : TEnv) (r : Zero) :
  URL_pathname (url rq) = None ->
  pathname (getUrl (url rq) (urlPool r)).1 = URL_set_pathname (url rq) ∧
  ∃ response r',
    handle rq e r = Some (response, r') ∧
    processRequest r rq e (URL_set_pathname (url rq)) (request_method rq)
      = Some response ∧
    (URL_set_pathname (url rq) = url rq ->
     processRequest r rq e (url rq) (request_method rq) = Some response).
Proof.
  intros Hbad.
  assert (Hpath : request_pathname rq = URL_set_pathname (url rq)).
  { unfold request_pathname. by rewrite Hbad. }
  split; [by rewrite getUrl_pathname, Hbad|].
  rewrite handle_eq, Hpath.
  destruct (processRequest_total r rq e (URL_set_pathname (url rq))
              (request_method rq)) as [response Hresp].
  rewrite Hresp. eexists _, _. split; [done|]. split; [done|].
  by intros <-.
Qed.

(** ** Method lookup *)

(** The fallback to GET applies to a name that [HTTP_METHODS] does not
    have, own or inherited. *)
Lemma request_method_fallback rq :
  HTTP_METHODS (method rq) = None -> request_method rq = MBits GET.
Proof. intros Hnone. unfold request_method. by rewrite Hnone. Qed.

(** A name inherited from [Object.prototype] is found, so the fallback does
    not apply to it, and the trie has no handler for the value found. *)
Lemma request_method_inherited rq :
  method rq ∈ Object_prototype_members ->
  request_method rq = MInherited (method rq).
Proof.
  intros Hin. unfold request_method, HTTP_METHODS.
  unfold Object_prototype_members in Hin.
  repeat (apply elem_of_cons in Hin as [->|Hin]; [reflexivity|]).
  by apply elem_of_nil in Hin.
Qed.

Lemma resolve_inherited r p member :
  resolve r p (MInherited member) =
    match staticRoutes r !! staticKey (MInherited member) p with
    | Some h => Some (h, ∅)
    | None => None
    end.
Proof.
  unfold resolve. destruct (staticRoutes r !! _); [done|].
  unfold findHandler.
  pose proof (findHandlerFrom_inherited (drop 1 (JsString.split p))
                (root r) ∅ member) as Hnone.
  destruct (findHandlerFrom _ _ _ _) as [o ps]. simpl in Hnone. by subst o.
Qed.

(** Every key of the static table of a reachable router starts with the
    digit of a registration method. *)
Lemma reachable_static_keys r :
  reachable r ->
  ∀ k h, staticRoutes r !! k = Some h -> starts_with_method_digit k = true.
Proof.
  assert (Hadd : ∀ m p h r0,
            starts_with_method_digit (staticKey (MBits m) p) = true ->
            (∀ k h0, staticRoutes r0 !! k = Some h0 ->
                     starts_with_method_digit k = true) ->
            ∀ k h0, staticRoutes (add m p h r0) !! k = Some h0 ->
                    starts_with_method_digit k = true).
  { intros m p h r0 Hkey IH k h0. unfold add.
    destruct (negb _ && negb _); simpl; [|apply IH].
    destruct (decide (staticKey (MBits m) p = k)) as [<-|Hne].
    - done.
    - rewrite lookup_insert_ne by done. apply IH. }
  induction 1 as [poolSize|p h r Hr IH|p h r Hr IH|p h r Hr IH|p h r Hr IH
                 |pm h r Hr IH]; intros k h0.
  - simpl. by rewrite lookup_empty.
  - by apply Hadd.
  - by apply Hadd.
  - by apply Hadd.
  - by apply Hadd.
  - apply IH.
Qed.

Lemma inherited_key_no_digit member p :
  member ∈ Object_prototype_members ->
  starts_with_method_digit (staticKey (MInherited member) p) = false.
Proof.
  intros Hin. unfold Object_prototype_members in Hin.
  repeat (apply elem_of_cons in Hin as [->|Hin]; [reflexivity|]).
  by apply elem_of_nil in Hin.
Qed.

(** In a router built by the registration methods, a request whose method
    is a name inherited from [Object.prototype] finds no route at all. *)
Lemma handle_inherited_method_not_found rq e r :
  reachable r ->
  method rq ∈ Object_prototype_members ->
  ∃ r', handle rq e r = Some (Response_notFound, r').
Proof.
  intros Hr Hin. rewrite handle_eq, processRequest_resolve.
  rewrite (request_method_inherited _ Hin), resolve_inherited.
  destruct (staticRoutes r !! _) as [h|] eqn:Hk; [|by eauto].
  apply (reachable_static_keys _ Hr) in Hk.
  by rewrite (inherited_key_no_digit _ _ Hin) in Hk.
Qed.

End Properties.

(** * Further properties of registration and resolution *)

Section Coverage.

Context {TEnv TObj : Type} `{!Platform TObj}.

Local Open Scope list_scope.

Local Abbreviation Response := (@Response TObj) (only parsing).
Local Abbreviation Handler := (@Handler TEnv TObj) (only parsing).
Local Abbreviation RouteNode := (@RouteNode TEnv TObj) (only parsing).
Local Abbreviation Middleware := (@Middleware TEnv TObj) (only parsing).
Local Abbreviation MiddlewareNode := (@MiddlewareNode TEnv TObj) (only parsing).
Local Abbreviation Zero := (@Zero TEnv TObj) (only parsing).
Local Abbreviation ChainState := (@ChainState TObj) (only parsing).
Local Abbreviation ChainResult := (@ChainResult TObj) (only parsing).

Implicit Types (node child : RouteNode) (r : Zero) (h : Handler).
Implicit Types (st : ChainState) (e : TEnv) (rq : Request).
Implicit Types (fs : list (Response -> Response)).

(** ** The handler found does not depend on the params object *)

Lemma findHandlerFrom_fst (rest : list string) :
  ∀ node (ps : gmap string string) m,
    (findHandlerFrom node rest ps m).1 = findOnly node rest m.
Proof.
  induction rest as [|part rest IH]; intros node ps m; [done|].
  rewrite findHandlerFrom_cons. cbn [findOnly].
  assert (Hs : (try_static (λ c p, findHandlerFrom c rest p m) node part ps).1
               = static_get node part ≫= (λ c, findOnly c rest m)).
  { unfold try_static. destruct (static_get node part); [apply IH|done]. }
  destruct (try_static _ node part ps) as [o ps1]. simpl in Hs. subst o.
  destruct (static_get node part ≫= _) as [hs|]; [done|].
  assert (Hp : (try_param (λ c p, findHandlerFrom c rest p m) node part ps1).1
               = param node ≫= (λ c, findOnly c rest m)).
  { unfold try_param. destruct (param node) as [c|]; [|done]. simpl.
    rewrite <- (IH c (<[paramKey node:=part]> ps1) m).
    by destruct (findHandlerFrom c rest _ m) as [[hp|] ps2]. }
  destruct (try_param _ node part ps1) as [o ps2]. simpl in Hp. subst o.
  by destruct (param node ≫= _).
Qed.

Lemma findOnly_emptyNode (rest : list string) m :
  findOnly (emptyNode : RouteNode) rest m = None.
Proof. by destruct rest, m. Qed.

Lemma resolve_fst r p m :
  fst <$> resolve r p m =
    match staticRoutes r !! staticKey m p with
    | Some h => Some h
    | None => findOnly (root r) (drop 1 (JsString.split p)) m
    end.
Proof.
  unfold resolve. destruct (staticRoutes r !! _); [done|].
  unfold findHandler.
  rewrite <- (findHandlerFrom_fst _ (root r) ∅ m).
  by destruct (findHandlerFrom _ _ _ _) as [[h|] ps].
Qed.

(** ** Registering twice *)

Lemma add_parts_twice (parts : list string) :
  ∀ node m h1 h2,
    add_parts (add_parts node parts m h1) parts m h2 = add_parts node parts m h2.
Proof.
  induction parts as [|part parts IH]; intros node m h1 h2; simpl.
  - by rewrite insert_insert_eq.
  - destruct (JsString.startsWith ":" part); simpl; [by rewrite IH|].
    destruct (String.eqb part "*"); simpl; [by rewrite IH|].
    rewrite lookup_insert_eq, insert_insert_eq. simpl. by rewrite IH.
Qed.

(** X1. Registering a handler for a method and path that already has one
    replaces it and changes nothing else: the router is the one the second
    registration alone would have built. *)
Theorem add_replaces_earlier_registration (m : Z) (p : string)
    (h1 h2 : Handler) (r : Zero) :
  add m p h2 (add m p h1 r) = add m p h2 r.
Proof.
  unfold add. destruct (negb _ && negb _); simpl.
  - by rewrite insert_insert_eq.
  - by rewrite add_parts_twice.
Qed.

(** ** Methods do not interfere *)

Lemma findOnly_add_parts_other (parts : list string) :
  ∀ node rest m m' h',
    m ≠ m' ->
    findOnly (add_parts node parts m' h') rest (MBits m)
    = findOnly node rest (MBits m).
Proof.
  induction parts as [|part parts IH]; intros node rest m m' h' Hne.
  - destruct rest as [|s rest]; [|done]. simpl.
    rewrite lookup_insert_ne by done. by destruct (handlers node).
  - simpl add_parts.
    destruct (JsString.startsWith ":" part).
    { destruct rest as [|s rest]; [done|]. cbn [findOnly param static_get
        static wildcard_get wildcard mbind option_bind].
      rewrite IH by done.
      destruct (param node) as [c|]; [reflexivity|].
      simpl default. rewrite findOnly_emptyNode. reflexivity. }
    destruct (String.eqb part "*").
    { destruct rest as [|s rest]; [done|]. cbn [findOnly param static_get
        static wildcard_get wildcard mbind option_bind].
      specialize (IH (default emptyNode (wildcard node)) [] m m' h' Hne).
      cbn [findOnly] in IH. rewrite IH. unfold wildcard_get.
      destruct (wildcard node); reflexivity. }
    destruct rest as [|s rest]; [done|].
    cbn [findOnly param wildcard_get wildcard].
    rewrite static_get_mkNode.
    assert (Hget : static_get node s = default ∅ (static node) !! s).
    { unfold static_get. destruct (static node); simpl; [done|].
      by rewrite lookup_empty. }
    rewrite Hget.
    destruct (decide (part = s)) as [->|Hps].
    + rewrite lookup_insert_eq. cbn [mbind option_bind]. rewrite IH by done.
      destruct (default ∅ (static node) !! s); [reflexivity|].
      simpl default. cbn [mbind option_bind].
      rewrite findOnly_emptyNode. reflexivity.
    + rewrite lookup_insert_ne by done. reflexivity.
Qed.

Lemma staticKey_registration_methods m m' p p' :
  m ∈ registration_methods -> m' ∈ registration_methods -> m ≠ m' ->
  staticKey (MBits m') p' ≠ staticKey (MBits m) p.
Proof.
  unfold registration_methods. intros Hm Hm' Hne.
  repeat (apply elem_of_cons in Hm as [->|Hm]);
    try (by apply elem_of_nil in Hm);
    repeat (apply elem_of_cons in Hm' as [->|Hm']);
    try (by apply elem_of_nil in Hm'); try done.
Qed.

(** X2. Methods do not interfere: registering a route for one of GET,
    POST, PUT, DELETE never changes which handler a request of another of
    these methods resolves to, whatever the two paths are. *)
Theorem registration_leaves_other_methods (m m' : Z) (p path : string)
    (h' : Handler) (r : Zero) :
  m ∈ registration_methods ->
  m' ∈ registration_methods ->
  m ≠ m' ->
  fst <$> resolve (add m' p h' r) path (MBits m)
  = fst <$> resolve r path (MBits m).
Proof.
  intros Hm Hm' Hne. rewrite !resolve_fst. unfold add.
  destruct (negb _ && negb _); simpl.
  - rewrite lookup_insert_ne;
      [done|by apply staticKey_registration_methods].
  - by rewrite findOnly_add_parts_other.
Qed.

(** X3. Routes are never removed: after any further registration, every
    pattern that had a handler for a method in the trie still has one, and
    every key of the static table is still there. *)
Theorem registration_keeps_routes (m : Z) (p : string) (h : Handler) (r : Zero) :
  (∀ pattern m0,
      is_Some (trie_route (root r) pattern m0) ->
      is_Some (trie_route (root (add m p h r)) pattern m0)) ∧
  (∀ key,
      is_Some (staticRoutes r !! key) ->
      is_Some (staticRoutes (add m p h r) !! key)).
Proof.
  split.
  - intros pattern m0 Hsome. unfold add.
    destruct (negb _ && negb _); simpl; [done|].
    by apply add_parts_keeps_routes.
  - intros key Hsome. unfold add.
    destruct (negb _ && negb _); simpl; [|done].
    destruct (decide (staticKey (MBits m) p = key)) as [<-|Hne].
    + rewrite lookup_insert_eq. by eauto.
    + by rewrite lookup_insert_ne.
Qed.

(** X4. A router with no routes answers every request with the 404
    response, whatever middleware is registered: middleware only runs for a
    request that resolved to a handler. *)
Theorem no_routes_not_found (rq : Request) (e : TEnv) (r : Zero) :
  root r = emptyNode ->
  staticRoutes r = ∅ ->
  handle rq e r =
    Some (Response_notFound,
          mkZero (root r) (staticRoutes r) (middlewareRoutes r)
                 (removelast (urlPool r) ++ [mkURL (request_pathname rq)])).
Proof.
  intros Hroot Hstatic. rewrite handle_eq, processRequest_resolve.
  assert (Hres : resolve r (request_pathname rq) (request_method rq) = None).
  { pose proof (resolve_fst r (request_pathname rq) (request_method rq)) as Hf.
    rewrite Hstatic, lookup_empty, Hroot, findOnly_emptyNode in Hf.
    by destruct (resolve r _ _). }
  by rewrite Hres.
Qed.

(** ** Middleware that wraps the rest of the chain *)

(** The chain from a state whose index has reached a run of wrapping
    middleware: they start in order, the handler runs, and they finish in
    the reverse order. *)
Lemma next_wraps h ps rq e fs :
  ∀ (pre : list MiddlewareNode) fuel st,
    currentIndex st = length pre ->
    (length fs < fuel)%nat ->
    next (pre ++ map wrap_node fs) h ps rq e fuel st =
      let acts := activations st
                  ++ (RanMiddleware <$> seq (currentIndex st) (length fs))
                  ++ [RanHandler] in
      let idx := (currentIndex st + length fs)%nat in
      match h (mkContext ps rq e (ctx_res st)) with
      | (res', Normal v) =>
          match formatResponse v with
          | Normal resp =>
              Finished (mkChainState (foldr (λ f acc, f acc) resp fs) idx acts)
          | Abrupt t => Threw t (mkChainState res' idx acts)
          end
      | (res', Abrupt t) => Threw t (mkChainState res' idx acts)
      end.
Proof.
  induction fs as [|f fs IH]; intros pre fuel st Hidx Hfuel;
    (destruct fuel as [|fuel]; [simpl in Hfuel; lia|]); rewrite next_S.
  - simpl map. rewrite app_nil_r, Hidx, Nat.ltb_irrefl, <- Hidx.
    cbv zeta. unfold ctx_of. simpl. rewrite Nat.add_0_r.
    destruct (h _) as [res' [v|t]]; [|done].
    by destruct (formatResponse v).
  - assert (Hlt : (currentIndex st <? length (pre ++ map wrap_node (f :: fs)))%nat
                  = true).
    { apply Nat.ltb_lt. rewrite length_app. simpl. lia. }
    rewrite Hlt. cbv zeta.
    assert (Hlook : (pre ++ map wrap_node (f :: fs)) !! currentIndex st
                    = Some (wrap_node f)).
    { rewrite Hidx. simpl. apply list_lookup_middle. done. }
    rewrite Hlook. unfold wrap_node at 1. unfold wrap at 1. cbn [runMw].
    change (pre ++ map wrap_node (f :: fs))
      with (pre ++ [wrap_node f] ++ map wrap_node fs).
    rewrite (app_assoc pre).
    rewrite IH; [|simpl; rewrite length_app; simpl; lia|simpl in *; lia].
    simpl.
    assert (Hacts : (activations st ++ [RanMiddleware (currentIndex st)])
                    ++ (RanMiddleware <$> seq (S (currentIndex st)) (length fs))
                    ++ [RanHandler]
                    = activations st
                      ++ RanMiddleware (currentIndex st)
                         :: (RanMiddleware <$> seq (S (currentIndex st)) (length fs))
                      ++ [RanHandler]).
    { by rewrite <- app_assoc. }
    rewrite Hacts, Nat.add_succ_r.
    destruct (h _) as [res' [v|t]]; [|done].
    by destruct (formatResponse v).
Qed.

(** A call of [next()] once every middleware has been started. *)
Lemma next_at_end (mws : list MiddlewareNode) h ps rq e fuel st :
  currentIndex st = length mws ->
  next mws h ps rq e (S fuel) st =
    match h (mkContext ps rq e (ctx_res st)) with
    | (res', Normal v) =>
        match formatResponse v with
        | Normal resp =>
            Finished (mkChainState resp (currentIndex st)
                        (activations st ++ [RanHandler]))
        | Abrupt t =>
            Threw t (mkChainState res' (currentIndex st)
                       (activations st ++ [RanHandler]))
        end
    | (res', Abrupt t) =>
        Threw t (mkChainState res' (currentIndex st)
                   (activations st ++ [RanHandler]))
    end.
Proof.
  intros Hidx. rewrite next_S, Hidx, Nat.ltb_irrefl. reflexivity.
Qed.

Lemma use_all_fields fs :
  ∀ r, root (use_all fs r) = root r ∧
       staticRoutes (use_all fs r) = staticRoutes r ∧
       middlewareRoutes (use_all fs r) = middlewareRoutes r ++ map wrap_node fs ∧
       urlPool (use_all fs r) = urlPool r.
Proof.
  induction fs as [|f fs IH]; intros r; simpl.
  - by rewrite app_nil_r.
  - destruct (IH (use (inr (wrap f)) None r)) as (Hr & Hs & Hm & Hp).
    unfold use_all in *. rewrite Hr, Hs, Hm, Hp. simpl.
    by rewrite <- app_assoc.
Qed.

Lemma applicable_wrap_nodes r fs p :
  middlewareRoutes r = map wrap_node fs -> applicable r p = map wrap_node fs.
Proof.
  intros Hm. unfold applicable. rewrite Hm. clear Hm.
  induction fs as [|f fs IH]; [done|]. simpl.
  rewrite filter_cons_True by done. by rewrite IH.
Qed.

Lemma resolve_same_routes r r' p m :
  root r' = root r -> staticRoutes r' = staticRoutes r ->
  resolve r' p m = resolve r p m.
Proof. intros Hr Hs. unfold resolve. by rewrite Hr, Hs. Qed.

Ltac split_first_node fs :=
  match goal with
  | |- context [?x :: map wrap_node fs] =>
      change (x :: map wrap_node fs) with ([x] ++ map wrap_node fs)
  end.

(** X5. Middleware registered with [use] wraps in registration order: when
    the router has no other middleware and each registered middleware awaits
    [next()] and then rewrites [ctx.res] with its function, a request whose
    handler returns starts the middleware in registration order, then the
    handler, and the response is the first function applied to the second
    applied to ... the normalised handler result. *)
Theorem use_wraps_in_registration_order (rq : Request) (e : TEnv) (r0 : Zero)
    fs (h : Handler) (ps : gmap string string) (res' resp : Response)
    (v : @Value TObj) :
  middlewareRoutes r0 = [] ->
  resolve r0 (request_pathname rq) (request_method rq) = Some (h, ps) ->
  h (mkContext ps rq e Response_default) = (res', Normal v) ->
  formatResponse v = Normal resp ->
  run_chain (use_all fs r0) h ps rq e (request_pathname rq) =
    Finished (mkChainState (foldr (λ f acc, f acc) resp fs) (length fs)
                ((RanMiddleware <$> seq 0 (length fs)) ++ [RanHandler])) ∧
  ∃ r', handle rq e (use_all fs r0)
        = Some (foldr (λ f acc, f acc) resp fs, r').
Proof.
  intros Hnone Hres Hh Hfmt.
  destruct (use_all_fields fs r0) as (Hroot & Hstatic & Hmw & _).
  rewrite Hnone in Hmw. simpl in Hmw.
  assert (Hchain : run_chain (use_all fs r0) h ps rq e (request_pathname rq) =
    Finished (mkChainState (foldr (λ f acc, f acc) resp fs) (length fs)
                ((RanMiddleware <$> seq 0 (length fs)) ++ [RanHandler]))).
  { unfold run_chain. rewrite (applicable_wrap_nodes _ fs _ Hmw).
    rewrite length_map.
    pose proof (next_wraps h ps rq e fs [] (S (length fs)) chain_start eq_refl)
      as Hrun.
    rewrite app_nil_l in Hrun. rewrite Hrun by lia.
    simpl. by rewrite Hh, Hfmt. }
  split; [done|].
  rewrite handle_eq, processRequest_resolve.
  rewrite (resolve_same_routes _ _ _ _ Hroot Hstatic), Hres.
  unfold execute. rewrite Hchain. by eauto.
Qed.

(** X6. The index of the chain is shared by all calls of [next()]: when the
    first middleware awaits [next()] twice, the first call runs the remaining
    middleware and the handler, and the second call runs the handler again
    without the remaining middleware; the response is the result of that
    second run. *)
Theorem second_next_reruns_handler (r : Zero) (rq : Request) (e : TEnv)
    (p pth : string) fs (h : Handler) (ps : gmap string string)
    (res1 resp1 res2 resp2 : Response) (v1 v2 : @Value TObj) :
  applicable r p = mkMiddlewareNode (Some next_twice) pth :: map wrap_node fs ->
  h (mkContext ps rq e Response_default) = (res1, Normal v1) ->
  formatResponse v1 = Normal resp1 ->
  h (mkContext ps rq e (foldr (λ f acc, f acc) resp1 fs)) = (res2, Normal v2) ->
  formatResponse v2 = Normal resp2 ->
  run_chain r h ps rq e p =
    Finished (mkChainState resp2 (S (length fs))
                (RanMiddleware 0 :: (RanMiddleware <$> seq 1 (length fs))
                 ++ [RanHandler; RanHandler])) ∧
  execute r h ps rq e p = Some resp2.
Proof.
  intros Happ Hh1 Hf1 Hh2 Hf2.
  assert (Hchain : run_chain r h ps rq e p =
    Finished (mkChainState resp2 (S (length fs))
                (RanMiddleware 0 :: (RanMiddleware <$> seq 1 (length fs))
                 ++ [RanHandler; RanHandler]))).
  { rewrite (run_chain_first_middleware _ _ _ _ _ _ _ _ _ Happ).
    unfold next_twice at 2. cbn [runMw].
    split_first_node fs. rewrite length_map.
    rewrite (next_wraps h ps rq e fs [_] (S (length fs)));
      [|reflexivity|lia].
    cbv zeta. cbn [ctx_res currentIndex activations].
    rewrite Hh1, Hf1.
    rewrite next_at_end;
      [|cbn [currentIndex]; rewrite length_app, length_map; simpl; lia].
    cbn [ctx_res currentIndex activations].
    rewrite Hh2, Hf2. simpl. by rewrite <- app_assoc. }
  split; [done|]. unfold execute. by rewrite Hchain.
Qed.

(** X7. A middleware that catches what [next()] throws keeps the error away
    from the dispatcher: when the handler throws and the first middleware
    catches and assigns a response, [#execute] returns that response, not
    the 500 response. *)
Theorem middleware_can_recover (r : Zero) (rq : Request) (e : TEnv)
    (p pth : string) fs (h : Handler) (ps : gmap string string)
    (g : Thrown -> Response) (res' : Response) (t : Thrown) :
  applicable r p = mkMiddlewareNode (Some (recover g)) pth :: map wrap_node fs ->
  h (mkContext ps rq e Response_default) = (res', Abrupt t) ->
  execute r h ps rq e p = Some (g t).
Proof.
  intros Happ Hh. unfold execute.
  rewrite (run_chain_first_middleware _ _ _ _ _ _ _ _ _ Happ).
  unfold recover at 2. cbn [runMw].
  split_first_node fs. rewrite length_map.
  rewrite (next_wraps h ps rq e fs [_] (S (length fs)));
    [|reflexivity|lia].
  simpl. by rewrite Hh.
Qed.

(** ** Middleware path patterns *)

Lemma split_parts_no_slash (s : string) :
  Forall (λ p, JsString.includes "/" p = false) (JsString.split s).
Proof.
  induction s as [|c s IH]; simpl; [by repeat constructor|].
  destruct (Ascii.eqb c "/") eqn:Hc; [by constructor|].
  destruct (JsString.split s) as [|seg segs].
  - constructor; [simpl; by rewrite Hc|constructor].
  - inversion IH as [|? ? Hseg Hsegs]; subst. constructor; [|done].
    simpl. by rewrite Hc.
Qed.

Lemma join_split (s : string) : JsString.join (JsString.split s) = s.
Proof.
  induction s as [|c s IH]; [done|]. simpl.
  destruct (Ascii.eqb c "/") eqn:Hc.
  - apply Ascii.eqb_eq in Hc as ->.
    pose proof (split_nonempty s) as Hne.
    destruct (JsString.split s) as [|seg segs]; [done|].
    change (JsString.join ("" :: seg :: segs))
      with (String "/" (JsString.join (seg :: segs))).
    by rewrite IH.
  - pose proof (split_nonempty s) as Hne.
    destruct (JsString.split s) as [|seg [|seg2 segs]]; [done| |].
    + simpl in *. by rewrite IH.
    + change (JsString.join (String c seg :: seg2 :: segs))
        with (String c (JsString.join (seg :: seg2 :: segs))).
      by rewrite IH.
Qed.

Lemma join_inj (l1 l2 : list string) :
  l1 ≠ [] -> l2 ≠ [] ->
  Forall (λ p, JsString.includes "/" p = false) l1 ->
  Forall (λ p, JsString.includes "/" p = false) l2 ->
  JsString.join l1 = JsString.join l2 -> l1 = l2.
Proof.
  intros Hn1 Hn2 Hs1 Hs2 Heq.
  rewrite <- (split_join l1), <- (split_join l2) by done. by rewrite Heq.
Qed.

Lemma take_removelast {A} (l : list A) :
  take (length (removelast l)) l = removelast l.
Proof.
  destruct l as [|x l] using rev_ind; [done|].
  rewrite removelast_last. by rewrite take_app_length.
Qed.

Lemma every_segment (f : string -> bool) (l1 : list string) :
  ∀ l2 : list string,
    length l1 = length l2 ->
    forallb id (imap (λ i part, f part || bool_decide (l2 !! i = Some part)) l1)
      = true
    ↔ Forall2 (λ mPart rPart, f mPart = true ∨ mPart = rPart) l1 l2.
Proof.
  induction l1 as [|x l1 IH]; intros [|y l2] Hlen; try done.
  simpl in Hlen. injection Hlen as Hlen.
  rewrite imap_cons. cbn [forallb id]. rewrite andb_true_iff.
  rewrite (IH l2 Hlen). simpl. rewrite orb_true_iff, bool_decide_eq_true.
  split.
  - intros [[Hf|[= ->]] Hrest]; constructor; auto.
  - intros Hall. inversion Hall as [|? ? ? ? Hhead Hrest]; subst.
    split; [|done]. destruct Hhead as [Hf| ->]; auto.
Qed.

(** X8. Every pattern matches itself: a middleware registered for a path
    applies to the requests for exactly that path, whatever the path is. *)
Theorem matchMiddlewarePath_reflexive (p : string) :
  matchMiddlewarePath p p = true.
Proof.
  unfold matchMiddlewarePath.
  destruct (String.eqb p "*"); [done|].
  case_bool_decide.
  - rewrite take_removelast. apply String.eqb_refl.
  - rewrite Nat.eqb_refl. simpl.
    apply (every_segment (JsString.startsWith ":") _ _ eq_refl).
    apply Forall2_same_length_lookup_2; [done|].
    intros i x y Hx Hy. right. congruence.
Qed.

(** X9. A pattern that ends in a wildcard segment matches a path exactly
    when the segments before the wildcard are the first segments of the
    path: everything after them is ignored, and the path may also stop
    there. *)
Theorem trailing_wildcard_matches_prefix (pattern path : string)
    (pre : list string) :
  pattern ≠ "*" ->
  JsString.split pattern = pre ++ ["*"] ->
  matchMiddlewarePath pattern path = true
  ↔ take (length pre) (JsString.split path) = pre.
Proof.
  intros Hstar Hsplit. unfold matchMiddlewarePath.
  destruct (String.eqb pattern "*") eqn:Heq;
    [by apply String.eqb_eq in Heq|].
  rewrite Hsplit, last_snoc, bool_decide_eq_true_2 by done.
  rewrite removelast_last. rewrite String.eqb_eq.
  assert (Hpre : pre ≠ []).
  { intros ->. apply Hstar. by rewrite <- (join_split pattern), Hsplit. }
  pose proof (split_parts_no_slash pattern) as Hp.
  rewrite Hsplit in Hp. apply Forall_app in Hp as [Hp _].
  pose proof (split_parts_no_slash path) as Hr.
  split; [|by intros ->].
  intros Hjoin. apply join_inj in Hjoin; try done.
  - intros Hnil. apply (f_equal length) in Hnil.
    rewrite length_take in Hnil. simpl in Hnil.
    pose proof (split_nonempty path).
    destruct pre; [done|]. destruct (JsString.split path); [done|].
    simpl in Hnil. lia.
  - by apply Forall_take.
Qed.

(** X10. A pattern that neither is the universal wildcard nor ends in a
    wildcard segment matches a path exactly when both have the same number
    of segments and every pattern segment either starts with the parameter
    marker or equals the path's segment at its position. *)
Theorem fixed_pattern_matches_segmentwise (pattern path : string) :
  pattern ≠ "*" ->
  last (JsString.split pattern) ≠ Some "*" ->
  matchMiddlewarePath pattern path = true
  ↔ Forall2 segment_matches (JsString.split pattern) (JsString.split path).
Proof.
  intros Hstar Hlast. unfold matchMiddlewarePath.
  destruct (String.eqb pattern "*") eqn:Heq;
    [by apply String.eqb_eq in Heq|].
  rewrite bool_decide_eq_false_2 by done.
  destruct (length (JsString.split pattern) =? length (JsString.split path))%nat
    eqn:Hlen; simpl.
  - apply Nat.eqb_eq in Hlen.
    apply (every_segment (JsString.startsWith ":") _ _ Hlen).
  - apply Nat.eqb_neq in Hlen. split; [done|].
    intros Hall. by apply Forall2_length in Hall.
Qed.

(** ** Segments registered after a wildcard *)

Lemma handlers_add_parts_cons node part parts m h :
  handlers (add_parts node (part :: parts) m h) = handlers node.
Proof.
  simpl. destruct (JsString.startsWith ":" part); [done|].
  by destruct (String.eqb part "*").
Qed.

Lemma findOnly_after_wildcard (pre : list string) :
  ∀ suf m h rest m',
    Forall (λ part, is_literal part = true) pre ->
    suf ≠ [] ->
    findOnly (add_parts (emptyNode : RouteNode) (pre ++ "*" :: suf) m h) rest m'
    = None.
Proof.
  induction pre as [|part pre IH]; intros suf m h rest m' Hlit Hsuf.
  - destruct suf as [|s suf]; [done|].
    destruct rest as [|seg rest]; [by destruct m'|].
    cbn [app].
    change (add_parts emptyNode ("*" :: s :: suf) m h)
      with (mkNode None None None None
              (Some (add_parts (emptyNode : RouteNode) (s :: suf) m h))).
    cbn [findOnly static_get static param wildcard_get wildcard
         mbind option_bind].
    unfold handlers_get. rewrite handlers_add_parts_cons. by destruct m'.
  - inversion Hlit as [|? ? Hpart Hpre]; subst.
    unfold is_literal in Hpart. apply andb_true_iff in Hpart as [Hp Hw].
    apply negb_true_iff in Hp. apply negb_true_iff in Hw.
    simpl app. simpl add_parts. rewrite Hp, Hw.
    destruct rest as [|seg rest]; [by destruct m'|].
    cbn [findOnly param wildcard_get wildcard mbind option_bind].
    rewrite static_get_mkNode. simpl default.
    destruct (decide (part = seg)) as [->|Hne].
    + rewrite lookup_insert_eq. cbn [mbind option_bind].
      rewrite lookup_empty. simpl default. by rewrite IH.
    + rewrite lookup_insert_ne by done. by rewrite lookup_empty.
Qed.

Lemma includes_of_part (c : ascii) (s part : string) :
  part ∈ JsString.split s ->
  JsString.includes c part = true ->
  JsString.includes c s = true.
Proof.
  revert part. induction s as [|d s IH]; intros part; simpl.
  - intros Hin%list_elem_of_singleton. by subst.
  - destruct (Ascii.eqb d "/") eqn:Hd.
    + intros [->|Hin]%elem_of_cons; [done|].
      intros Hc. rewrite (IH _ Hin Hc). apply orb_true_r.
    + pose proof (split_nonempty s) as Hne.
      destruct (JsString.split s) as [|seg segs]; [done|].
      intros [->|Hin]%elem_of_cons.
      * simpl. destruct (Ascii.eqb d c); [done|]. simpl.
        intros Hc. apply (IH seg); [by left|done].
      * intros Hc. rewrite (IH part); [apply orb_true_r|by right|done].
Qed.

(** X12. Segments registered after a wildcard segment are never matched:
    in a router with no other route, a route whose pattern continues after
    a [*] segment (literal segments before it) resolves no request at all,
    for any path and any method. *)
Theorem route_after_wildcard_is_dead (m : Z) (p : string) (h : Handler)
    (r : Zero) (first : string) (pre suf : list string)
    (path : string) (m' : MethodValue) :
  root r = emptyNode ->
  staticRoutes r = ∅ ->
  JsString.split p = first :: pre ++ "*" :: suf ->
  Forall (λ part, is_literal part = true) pre ->
  suf ≠ [] ->
  resolve (add m p h r) path m' = None.
Proof.
  intros Hroot Hstatic Hsplit Hlit Hsuf.
  assert (Hstar : JsString.includes "*" p = true).
  { apply (includes_of_part _ _ "*"); [|done].
    rewrite Hsplit. apply elem_of_cons. right.
    apply elem_of_app. right. by left. }
  assert (Hadd : add m p h r
                 = mkZero (add_parts emptyNode (pre ++ "*" :: suf) m h)
                          ∅ (middlewareRoutes r) (urlPool r)).
  { rewrite add_trie_path by (rewrite Hstar; apply orb_true_r).
    by rewrite Hsplit, Hroot, Hstatic. }
  pose proof (resolve_fst (add m p h r) path m') as Hf.
  rewrite Hadd in Hf |- *. cbn [staticRoutes root] in Hf.
  rewrite lookup_empty, findOnly_after_wildcard in Hf by done.
  by destruct (resolve _ path m').
Qed.

(** ** The key of the static table *)

(** X13. The key of the static table is the method number written in
    decimal followed by the path, so a GET route whose path starts with the
    character 6 has the key of the PATCH request for the rest of the path:
    that request is answered by the GET route's handler. *)
Theorem patch_request_finds_get_route (path : string) (h : Handler) (r : Zero) :
  JsString.includes ":" path = false ->
  JsString.includes "*" path = false ->
  resolve (get (String "6" path) h r) path (MBits PATCH) = Some (h, ∅).
Proof.
  intros Hc Hw. unfold get.
  rewrite add_static_path by (simpl; done).
  unfold resolve. simpl staticRoutes.
  change (staticKey (MBits PATCH) path)
    with (staticKey (MBits GET) (String "6" path)).
  by rewrite lookup_insert_eq.
Qed.

(** ** Method names *)

(** X14. A request whose method is none of the six names of
    [HTTP_METHODS] and none of the names inherited from [Object.prototype]
    is served as a GET request: [handle] answers with what
    [#processRequest] gives for the method GET on the request's path. *)
Theorem unknown_method_served_as_GET (rq : Request) (e : TEnv) (r : Zero) :
  method rq ∉ ["GET"; "POST"; "PUT"; "DELETE"; "PATCH"; "OPTIONS"] ->
  method rq ∉ Object_prototype_members ->
  fst <$> handle rq e r
  = processRequest r rq e (request_pathname rq) (MBits GET).
Proof.
  intros Hown Hinherited.
  assert (Hm : request_method rq = MBits GET).
  { unfold request_method, HTTP_METHODS.
    repeat (apply not_elem_of_cons in Hown as [Hne Hown];
            apply (proj2 (String.eqb_neq _ _)) in Hne; rewrite Hne;
            clear Hne).
    by rewrite bool_decide_eq_false_2. }
  rewrite handle_eq, Hm. by destruct (processRequest r rq e _ _).
Qed.

(** ** The text before the first separator *)

(** X15. Registration in the trie starts at the second element of the split
    pattern, as resolution does with the split path: two patterns that
    differ only before their first separator register the same route, so a
    pattern written without the leading separator is matched like the one
    written with it. *)
Theorem text_before_first_separator_is_ignored (m : Z) (p p' : string)
    (h : Handler) (r : Zero) (a b : string) (segs : list string) :
  JsString.split p = a :: segs ->
  JsString.split p' = b :: segs ->
  JsString.includes ":" p || JsString.includes "*" p = true ->
  JsString.includes ":" p' || JsString.includes "*" p' = true ->
  add m p h r = add m p' h r.
Proof.
  intros Hp Hp' Hdyn Hdyn'.
  rewrite (add_trie_path _ _ _ _ Hdyn), (add_trie_path _ _ _ _ Hdyn').
  by rewrite Hp, Hp'.
Qed.

End Coverage.

(** * Runs on the concrete routers *)

Example resolve_static_name :
  demo_resolve demo_users "/users/static-name" (MBits GET)
  = Some (respond "literal", ∅).
Proof. reflexivity. Qed.

Example resolve_users_42 :
  demo_resolve demo_users "/users/42" (MBits GET)
  = Some (echo_param "id", {["id" := "42"]}).
Proof. vm_compute. reflexivity. Qed.

Example handle_users_42 :
  fst <$> demo_handle (mkRequest "http://x/users/42" "GET") tt demo_users
  = Some (mkResponse 200 [("Content-Type", "text/plain")] (BodyText "42")).
Proof. vm_compute. reflexivity. Qed.

Example matchMiddlewarePath_prefix :
  matchMiddlewarePath "/api/*" "/api/users/42" = true ∧
  matchMiddlewarePath "/api/*" "/other" = false.
Proof. split; reflexivity. Qed.

Example matchMiddlewarePath_fixed :
  matchMiddlewarePath "/users/:id" "/users/42" = true ∧
  matchMiddlewarePath "/users/:id" "/users/42/posts" = false ∧
  matchMiddlewarePath "/users/me" "/users/42" = false.
Proof. repeat split; vm_compute; reflexivity. Qed.

Lemma precedence_literal_over_param_witness :
  staticRoutes demo_users !! staticKey (MBits GET) "/users/static-name"
    = Some (respond "literal") ∧
  static_get (root demo_users) "users" = Some demo_users_node ∧
  param demo_users_node = Some demo_users_param ∧
  handlers_get demo_users_param (MBits GET) = Some (echo_param "id") ∧
  resolve demo_users "/users/static-name" (MBits GET)
    = Some (respond "literal", ∅) ∧
  resolve demo_users "/users/anything-else" (MBits GET)
    = Some (echo_param "id", {["id" := "anything-else"]}).
Proof.
  assert (H1 : staticRoutes demo_users
                 !! staticKey (MBits GET) "/users/static-name"
               = Some (respond "literal")) by (vm_compute; reflexivity).
  assert (H2 : static_get (root demo_users) "users" = Some demo_users_node)
    by (vm_compute; reflexivity).
  assert (H3 : param demo_users_node = Some demo_users_param)
    by (vm_compute; reflexivity).
  assert (H4 : handlers_get demo_users_param (MBits GET)
               = Some (echo_param "id")) by (vm_compute; reflexivity).
  pose proof (precedence_literal_over_param demo_users GET _ _ _ _
                H1 H2 H3 H4) as [Hlit Hseg].
  repeat (split; [assumption|]).
  specialize (Hseg "anything-else" eq_refl).
  vm_compute in Hseg. vm_compute. exact Hseg.
Defined.

Example handle_a_VALUE_b :
  fst <$> demo_handle (mkRequest "http://x/a/VALUE/b" "GET") tt demo_params
  = Some (mkResponse 200 [("Content-Type", "text/plain")] (BodyText "VALUE")).
Proof. vm_compute. reflexivity. Qed.


Lemma wildcard_absorbs_remaining_segments_witness :
  static_get (root demo_files) "files" = Some demo_files_node ∧
  wildcard_get demo_files_node (MBits GET) = Some (respond "file") ∧
  resolve demo_files "/files/a" (MBits GET) = Some (respond "file", ∅) ∧
  resolve demo_files "/files/a/b/c" (MBits GET) = Some (respond "file", ∅).
Proof.
  assert (H1 : static_get (root demo_files) "files" = Some demo_files_node)
    by (vm_compute; reflexivity).
  assert (H2 : wildcard_get demo_files_node (MBits GET) = Some (respond "file"))
    by (vm_compute; reflexivity).
  pose proof (wildcard_absorbs_remaining_segments demo_files GET _ _ H1 H2)
    as Hall.
  repeat (split; [assumption|]). split.
  - assert (Hsegs : Forall (λ p, JsString.includes "/" p = false) ["a"])
      by (repeat constructor).
    specialize (Hall "a" [] Hsegs).
    vm_compute in Hall. vm_compute. exact Hall.
  - assert (Hsegs : Forall (λ p, JsString.includes "/" p = false)
                      ["a"; "b"; "c"]) by (repeat constructor).
    specialize (Hall "a" ["b"; "c"] Hsegs).
    vm_compute in Hall. vm_compute. exact Hall.
Defined.

Lemma middleware_short_circuit_witness :
  resolve demo_guarded (demo_pathname demo_request_x)
          (request_method demo_request_x) = Some (respond "handler", ∅) ∧
  applicable demo_guarded (demo_pathname demo_request_x)
    = [mkMiddlewareNode (Some demo_guard) "*";
       mkMiddlewareNode (Some demo_pass) "*"] ∧
  run_chain demo_guarded (respond "handler") ∅
            demo_request_x tt (demo_pathname demo_request_x)
    = Finished (mkChainState demo_unauthorized 1 [RanMiddleware 0]) ∧
  ∃ r', demo_handle demo_request_x tt demo_guarded
        = Some (demo_unauthorized, r').
Proof.
  assert (H1 : resolve demo_guarded (demo_pathname demo_request_x)
                 (request_method demo_request_x)
               = Some (respond "handler", ∅)) by (vm_compute; reflexivity).
  assert (H2 : applicable demo_guarded (demo_pathname demo_request_x)
               = [mkMiddlewareNode (Some demo_guard) "*";
                  mkMiddlewareNode (Some demo_pass) "*"])
    by (vm_compute; reflexivity).
  assert (H3 : never_next
                 (demo_guard (mkContext ∅ demo_request_x tt Response_default)))
    by (repeat constructor).
  pose proof (@middleware_short_circuit unit DemoObj demo_platform
                demo_guarded demo_request_x tt
                (respond "handler") ∅ demo_guard "*"
                [mkMiddlewareNode (Some demo_pass) "*"]
                (λ _, OutOfFuel)
                (mkChainState demo_unauthorized 1 [RanMiddleware 0])
                H1 H2 H3 eq_refl) as (Hchain & _ & Hhandle & _).
  repeat (split; [assumption|]). exact Hhandle.
Defined.

Example handle_guarded_passes_when_guard_absent :
  fst <$> demo_handle demo_request_x tt
            (use (inr demo_pass) None (get "/x" (respond "handler") (Zero_new 1)))
  = Some (mkResponse 200 [("Content-Type", "text/plain")] (BodyText "handler")).
Proof. vm_compute. reflexivity. Qed.

Lemma static_route_fast_path_witness :
  JsString.includes ":" "/health" = false ∧
  JsString.includes "*" "/health" = false ∧
  root demo_health = root (@Zero_new unit DemoObj 1) ∧
  staticRoutes demo_health !! staticKey (MBits GET) "/health"
    = Some (respond "healthy") ∧
  staticRoutes demo_health !! staticKey (MBits POST) "/health" = None ∧
  staticRoutes demo_health !! staticKey (MBits GET) "/healthz" = None ∧
  resolve demo_health "/health" (MBits GET) = Some (respond "healthy", ∅) ∧
  ∃ r', demo_handle (mkRequest "http://x/health" "GET") tt demo_health
        = Some (mkResponse 200 [("Content-Type", "text/plain")]
                  (BodyText "healthy"), r').
Proof.
  assert (Hget : GET ∈ registration_methods)
    by (apply elem_of_cons; by left).
  assert (Hpost : POST ∈ registration_methods)
    by (apply elem_of_cons; right; apply elem_of_cons; by left).
  pose proof (@static_route_fast_path unit DemoObj demo_platform
                (Zero_new 1) GET "/health"
                (respond "healthy") eq_refl eq_refl)
    as (Hroot & _ & Hkey & Hres & _ & Hhandle).
  split; [reflexivity|]. split; [reflexivity|].
  split; [exact Hroot|].
  split; [exact (Hkey GET "/health" Hget Hget)|].
  split; [exact (Hkey POST "/health" Hget Hpost)|].
  split; [exact (Hkey GET "/healthz" Hget Hget)|].
  split; [exact Hres|].
  exact (Hhandle (mkRequest "http://x/health" "GET") tt
           eq_refl eq_refl eq_refl).
Defined.

(** The same path asked for with another method is not found. *)
Example handle_health_other_method :
  fst <$> demo_handle (mkRequest "http://x/health" "POST") tt demo_health
  = Some (mkResponse 404 [] (BodyText "Not Found")).
Proof. vm_compute. reflexivity. Qed.

Example handle_health :
  fst <$> demo_handle (mkRequest "http://x/health" "GET") tt
            (get "/health" (respond "healthy") (Zero_new 1))
  = Some (mkResponse 200 [("Content-Type", "text/plain")] (BodyText "healthy")).
Proof. vm_compute. reflexivity. Qed.

Lemma malformed_url_degrades_witness :
  demo_URL_pathname (url demo_request_relative) = None ∧
  ∃ response r',
    demo_handle demo_request_relative tt demo_users = Some (response, r') ∧
    processRequest demo_users demo_request_relative tt
      "/users/42" (MBits GET) = Some response.
Proof.
  split; [reflexivity|].
  destruct (@malformed_url_degrades unit DemoObj demo_platform
              demo_request_relative tt demo_users eq_refl)
    as (_ & response & r' & Hhandle & Hprocess & _).
  exists response, r'. split; [exact Hhandle|exact Hprocess].
Defined.

(** C9, as the specification words it, fails where the platform's setter
    changes what is assigned. The URL [users/42] does not parse; the route
    [/users/:id] answers the request, because the path read back is
    [/users/42], while the raw string taken as the path finds no route. *)
Lemma raw_url_is_not_the_path :
  @URL_pathname DemoObj slash_platform (url demo_request_bare) = None ∧
  pathname (@getUrl DemoObj slash_platform (url demo_request_bare)
              (urlPool demo_users)).1 = "/users/42" ∧
  fst <$> @handle unit DemoObj slash_platform demo_request_bare tt demo_users
    = Some (mkResponse 200 [("Content-Type", "text/plain")] (BodyText "42")) ∧
  @processRequest unit DemoObj slash_platform demo_users demo_request_bare tt
    (url demo_request_bare) (MBits GET)
    = Some (mkResponse 404 [] (BodyText "Not Found")) ∧
  fst <$> @handle unit DemoObj slash_platform demo_request_bare tt demo_users
    ≠ @processRequest unit DemoObj slash_platform demo_users demo_request_bare
        tt (url demo_request_bare) (MBits GET).
Proof.
  split; [reflexivity|]. split; [reflexivity|].
  split; [vm_compute; reflexivity|]. split; [vm_compute; reflexivity|].
  vm_compute. intros Heq. discriminate Heq.
Qed.

Example handle_relative_url :
  fst <$> demo_handle demo_request_relative tt demo_users
  = Some (mkResponse 200 [("Content-Type", "text/plain")] (BodyText "42")).
Proof. vm_compute. reflexivity. Qed.



(** Runs of the error path: a handler that throws, a result that cannot be
    serialised, and a thrown value that is not an [Error]. *)
Example handle_failing_handler :
  fst <$> demo_handle (mkRequest "http://x/boom" "GET") tt
            (get "/boom" (failing "kaboom") (Zero_new 0))
  = Some (mkResponse 500 [("Content-Type", "application/json")]
            (BodyErrorJSON "kaboom")).
Proof. vm_compute. reflexivity. Qed.

Example handle_unserialisable_result :
  fst <$> demo_handle (mkRequest "http://x/cycle" "GET") tt
            (get "/cycle" (λ ctx, (res ctx, Normal (VOther CyclicObject)))
               (Zero_new 0))
  = Some (mkResponse 500 [("Content-Type", "application/json")]
            (BodyErrorJSON "Converting circular structure to JSON")).
Proof. vm_compute. reflexivity. Qed.

Example handle_non_error_thrown :
  fst <$> demo_handle (mkRequest "http://x/boom" "GET") tt
            (get "/boom" (λ ctx, (res ctx, Abrupt (NonError "a string")))
               (Zero_new 0))
  = Some (mkResponse 500 [("Content-Type", "application/json")]
            (BodyErrorJSON "Unknown error occurred")).
Proof. vm_compute. reflexivity. Qed.

(** Three requests against a pool built empty: each is answered, and the
    pool holds the one object allocated on demand. *)
Example handle_all_empty_pool :
  (λ out, (map status out.1, length (urlPool out.2)))
    <$> handle_all
          [(mkRequest "http://x/boom" "GET", tt);
           (mkRequest "http://x/none" "GET", tt);
           (mkRequest "http://x/ok" "GET", tt)]
          (get "/ok" (respond "ok") (get "/boom" (failing "kaboom") (Zero_new 0)))
  = Some ([500; 404; 200]%Z, 1%nat).
Proof. vm_compute. reflexivity. Qed.

Lemma pool_balance_witness :
  length (urlPool demo_pool_router) = 0%nat ∧
  ∃ responses r',
    handle_all demo_pool_requests demo_pool_router = Some (responses, r') ∧
    length responses = 3%nat ∧
    length (urlPool r') = 1%nat.
Proof.
  split; [reflexivity|].
  destruct (@pool_balance unit DemoObj demo_platform
              0 demo_pool_requests demo_pool_router eq_refl)
    as (_ & responses & r' & Hall & Hlen & Hpool).
  exists responses, r'. split; [exact Hall|]. split; [exact Hlen|exact Hpool].
Defined.

(** The wildcard needs at least one segment to absorb. *)
Example resolve_files_alone :
  demo_resolve demo_files "/files" (MBits GET) = None.
Proof. vm_compute. reflexivity. Qed.

(** A failed parametric descent deletes its key, also when an enclosing
    level had bound the same name: with [/:x/:x/c] and [/:x/*] registered,
    [/1/2/d] reaches the wildcard route with no binding left for [x]. *)
Example rollback_deletes_the_key :
  demo_resolve
    (get "/:x/*" (respond "wild") (get "/:x/:x/c" (echo_param "x") (Zero_new 1)))
    "/1/2/d" (MBits GET)
  = Some (respond "wild", ∅).
Proof. vm_compute. reflexivity. Qed.

(** The later name at a shared position is the one bound. *)
Example resolve_after_rename :
  demo_resolve
    (get "/a/:y/c" (respond "second") (get "/a/:x/b" (echo_param "x") (Zero_new 1)))
    "/a/VALUE/b" (MBits GET)
  = Some (echo_param "x", {["y" := "VALUE"]}).
Proof. vm_compute. reflexivity. Qed.

(** C10. A method name that [HTTP_METHODS] does not have falls back to GET:
    a HEAD request for [/] gets the response of the GET route. A method name
    that the object inherits from [Object.prototype] is found by the lookup,
    so the fallback does not apply: the same request with the method
    [constructor] is answered with 404. *)
Theorem inherited_method_name_is_not_GET :
  HTTP_METHODS "HEAD" = None ∧
  HTTP_METHODS "constructor" = Some (MInherited "constructor") ∧
  fst <$> demo_handle (mkRequest "http://x/" "GET") tt demo_home
    = Some (mkResponse 200 [("Content-Type", "text/plain")] (BodyText "home")) ∧
  fst <$> demo_handle (mkRequest "http://x/" "HEAD") tt demo_home
    = Some (mkResponse 200 [("Content-Type", "text/plain")] (BodyText "home")) ∧
  fst <$> demo_handle (mkRequest "http://x/" "constructor") tt demo_home
    = Some Response_notFound.
Proof. repeat split; vm_compute; reflexivity. Qed.

(** * Runs for the further properties *)

Lemma registration_leaves_other_methods_witness :
  GET ∈ registration_methods ∧
  POST ∈ registration_methods ∧
  GET ≠ POST ∧
  fst <$> resolve (add POST "/users/:id" (respond "posted") demo_users)
                  "/users/42" (MBits GET)
  = fst <$> resolve demo_users "/users/42" (MBits GET).
Proof.
  assert (H1 : GET ∈ registration_methods) by (repeat constructor).
  assert (H2 : POST ∈ registration_methods) by (repeat constructor).
  assert (H3 : GET ≠ POST) by (intros Heq; discriminate Heq).
  repeat (split; [assumption|]).
  exact (registration_leaves_other_methods GET POST "/users/:id" "/users/42"
           (respond "posted") demo_users H1 H2 H3).
Defined.

Lemma no_routes_not_found_witness :
  root demo_only_middleware = emptyNode ∧
  staticRoutes demo_only_middleware = ∅ ∧
  fst <$> demo_handle demo_request_x tt demo_only_middleware
  = Some Response_notFound.
Proof.
  split; [reflexivity|]. split; [reflexivity|].
  unfold demo_handle.
  rewrite (@no_routes_not_found unit DemoObj demo_platform
             demo_request_x tt demo_only_middleware eq_refl eq_refl).
  reflexivity.
Defined.

Lemma use_wraps_in_registration_order_witness :
  middlewareRoutes demo_route_x = [] ∧
  resolve demo_route_x (demo_pathname demo_request_x)
          (request_method demo_request_x) = Some (respond "handler", ∅) ∧
  ∃ r', demo_handle demo_request_x tt
          (use_all [demo_tag "outer"; demo_tag "inner"] demo_route_x)
        = Some (mkResponse 200
                  [("X-Tag", "outer"); ("X-Tag", "inner");
                   ("Content-Type", "text/plain")]
                  (BodyText "handler"), r').
Proof.
  assert (H1 : middlewareRoutes demo_route_x = []) by reflexivity.
  assert (H2 : resolve demo_route_x (demo_pathname demo_request_x)
                 (request_method demo_request_x)
               = Some (respond "handler", ∅)) by (vm_compute; reflexivity).
  repeat (split; [assumption|]).
  exact (proj2 (@use_wraps_in_registration_order unit DemoObj demo_platform
                  demo_request_x tt demo_route_x
                  [demo_tag "outer"; demo_tag "inner"]
                  (respond "handler") ∅ Response_default
                  (mkResponse 200 [("Content-Type", "text/plain")]
                     (BodyText "handler"))
                  (VString "handler") H1 H2 eq_refl eq_refl)).
Defined.

Lemma second_next_reruns_handler_witness :
  applicable demo_twice "/x"
    = mkMiddlewareNode (Some next_twice) "*" :: map wrap_node [demo_tag "inner"] ∧
  @run_chain unit DemoObj demo_platform demo_twice (respond "handler") ∅
             demo_request_x tt "/x"
    = Finished (mkChainState
                  (mkResponse 200 [("Content-Type", "text/plain")]
                     (BodyText "handler"))
                  2
                  [RanMiddleware 0; RanMiddleware 1; RanHandler; RanHandler]).
Proof.
  assert (H1 : applicable demo_twice "/x"
               = mkMiddlewareNode (Some next_twice) "*"
                 :: map wrap_node [demo_tag "inner"])
    by (vm_compute; reflexivity).
  split; [assumption|].
  exact (proj1 (@second_next_reruns_handler unit DemoObj demo_platform
                  demo_twice demo_request_x tt "/x" "*" [demo_tag "inner"]
                  (respond "handler") ∅
                  Response_default
                  (mkResponse 200 [("Content-Type", "text/plain")]
                     (BodyText "handler"))
                  (demo_tag "inner"
                     (mkResponse 200 [("Content-Type", "text/plain")]
                        (BodyText "handler")))
                  (mkResponse 200 [("Content-Type", "text/plain")]
                     (BodyText "handler"))
                  (VString "handler") (VString "handler")
                  H1 eq_refl eq_refl eq_refl eq_refl)).
Defined.

Lemma middleware_can_recover_witness :
  applicable demo_recovering "/x"
    = mkMiddlewareNode (Some (recover (λ _, demo_recovered))) "*"
      :: map wrap_node [demo_tag "inner"] ∧
  @execute unit DemoObj demo_platform demo_recovering (failing "kaboom") ∅
           demo_request_x tt "/x" = Some demo_recovered.
Proof.
  assert (H1 : applicable demo_recovering "/x"
               = mkMiddlewareNode (Some (recover (λ _, demo_recovered))) "*"
                 :: map wrap_node [demo_tag "inner"])
    by (vm_compute; reflexivity).
  split; [assumption|].
  exact (@middleware_can_recover unit DemoObj demo_platform
           demo_recovering demo_request_x tt "/x" "*" [demo_tag "inner"]
           (failing "kaboom") ∅ (λ _, demo_recovered) Response_default
           (ErrorObject "kaboom") H1 eq_refl).
Defined.

Lemma trailing_wildcard_matches_prefix_witness :
  "/api/*" ≠ "*" ∧
  JsString.split "/api/*" = [""; "api"; "*"] ∧
  matchMiddlewarePath "/api/*" "/api/users/42" = true ∧
  matchMiddlewarePath "/api/*" "/api" = true ∧
  matchMiddlewarePath "/api/*" "/apix/users" ≠ true.
Proof.
  assert (H1 : "/api/*" ≠ "*") by (intros Heq; discriminate Heq).
  assert (H2 : JsString.split "/api/*" = [""; "api"; "*"]) by reflexivity.
  repeat (split; [assumption|]).
  split; [|split].
  - by apply (proj2 (trailing_wildcard_matches_prefix
                       "/api/*" "/api/users/42" [""; "api"] H1 H2)).
  - by apply (proj2 (trailing_wildcard_matches_prefix
                       "/api/*" "/api" [""; "api"] H1 H2)).
  - intros Hmatch.
    apply (proj1 (trailing_wildcard_matches_prefix
                    "/api/*" "/apix/users" [""; "api"] H1 H2)) in Hmatch.
    discriminate Hmatch.
Defined.

Lemma fixed_pattern_matches_segmentwise_witness :
  "/users/:id" ≠ "*" ∧
  last (JsString.split "/users/:id") ≠ Some "*" ∧
  Forall2 segment_matches [""; "users"; ":id"] [""; "users"; "42"] ∧
  matchMiddlewarePath "/users/:id" "/users/42" = true.
Proof.
  assert (H1 : "/users/:id" ≠ "*") by (intros Heq; discriminate Heq).
  assert (H2 : last (JsString.split "/users/:id") ≠ Some "*")
    by (intros Heq; discriminate Heq).
  assert (H3 : Forall2 segment_matches [""; "users"; ":id"] [""; "users"; "42"]).
  { repeat constructor; by right. }
  repeat (split; [assumption|]).
  exact (proj2 (fixed_pattern_matches_segmentwise
                  "/users/:id" "/users/42" H1 H2) H3).
Defined.

Lemma route_after_wildcard_is_dead_witness :
  root (@Zero_new unit DemoObj 1) = emptyNode ∧
  staticRoutes (@Zero_new unit DemoObj 1) = ∅ ∧
  JsString.split "/files/*/x" = [""; "files"; "*"; "x"] ∧
  Forall (λ part, is_literal part = true) ["files"] ∧
  ["x"] ≠ [] ∧
  resolve (add GET "/files/*/x" (respond "file") (@Zero_new unit DemoObj 1))
          "/files/a/x" (MBits GET) = None.
Proof.
  assert (H4 : Forall (λ part, is_literal part = true) ["files"])
    by (repeat constructor).
  assert (H5 : ["x"] ≠ @nil string) by (intros Heq; discriminate Heq).
  split; [reflexivity|]. split; [reflexivity|]. split; [reflexivity|].
  split; [assumption|]. split; [assumption|].
  exact (route_after_wildcard_is_dead GET "/files/*/x" (respond "file")
           (Zero_new 1) "" ["files"] ["x"] "/files/a/x" (MBits GET)
           eq_refl eq_refl eq_refl H4 H5).
Defined.

Lemma patch_request_finds_get_route_witness :
  JsString.includes ":" "/x" = false ∧
  JsString.includes "*" "/x" = false ∧
  resolve (get "6/x" (respond "got") (@Zero_new unit DemoObj 1))
          "/x" (MBits PATCH) = Some (respond "got", ∅).
Proof.
  split; [reflexivity|]. split; [reflexivity|].
  exact (patch_request_finds_get_route "/x" (respond "got") (Zero_new 1)
           eq_refl eq_refl).
Defined.

Lemma unknown_method_served_as_GET_witness :
  ("HEAD" ∉ ["GET"; "POST"; "PUT"; "DELETE"; "PATCH"; "OPTIONS"]) ∧
  ("HEAD" ∉ Object_prototype_members) ∧
  fst <$> demo_handle (mkRequest "http://x/" "HEAD") tt demo_home
  = @processRequest unit DemoObj demo_platform demo_home
      (mkRequest "http://x/" "HEAD") tt "/" (MBits GET).
Proof.
  assert (H1 : "HEAD" ∉ ["GET"; "POST"; "PUT"; "DELETE"; "PATCH"; "OPTIONS"])
    by (repeat (apply not_elem_of_cons; split;
                  [intros Heq; discriminate Heq|]); apply not_elem_of_nil).
  assert (H2 : "HEAD" ∉ Object_prototype_members)
    by (unfold Object_prototype_members;
        repeat (apply not_elem_of_cons; split;
                  [intros Heq; discriminate Heq|]); apply not_elem_of_nil).
  repeat (split; [assumption|]).
  exact (@unknown_method_served_as_GET unit DemoObj demo_platform
           (mkRequest "http://x/" "HEAD") tt demo_home H1 H2).
Defined.

Lemma text_before_first_separator_is_ignored_witness :
  JsString.split "v1/users/:id" = "v1" :: ["users"; ":id"] ∧
  JsString.split "/users/:id" = "" :: ["users"; ":id"] ∧
  JsString.includes ":" "v1/users/:id" || JsString.includes "*" "v1/users/:id"
    = true ∧
  JsString.includes ":" "/users/:id" || JsString.includes "*" "/users/:id"
    = true ∧
  add GET "v1/users/:id" (echo_param "id") (@Zero_new unit DemoObj 1)
  = add GET "/users/:id" (echo_param "id") (Zero_new 1).
Proof.
  split; [reflexivity|]. split; [reflexivity|]. split; [reflexivity|].
  split; [reflexivity|].
  exact (text_before_first_separator_is_ignored GET "v1/users/:id" "/users/:id"
           (echo_param "id") (Zero_new 1) "v1" "" ["users"; ":id"]
           eq_refl eq_refl eq_refl eq_refl).
Defined.
